(** * MANDALA-MINER: spaced-repetition scheduling, review store, offline
      queue and review-session controller.

    A shallow embedding of
      - [calculateSRS] and [getInitialSRSState] (the SM-2 utility),
      - the [saveItem] mutation of [backend/saveToSRS.ts],
      - the pending-review part of [OfflineCache],
      - the session handlers of [SRSReviewScreen],
    followed by the properties established about them.

    Numbers.  TypeScript's [number] is an IEEE-754 double.  [Float64] gives
    the doubles and the operations the scheduler uses on them, and
    [SrsAlgorithm] is [calculateSRS] over them, operation by operation.
    [Scheduler] is the same function read in exact arithmetic, grades and day
    counts in [Z] and ease factors in [Q]; the statements made about it say
    so, and they are about the branch structure, the floor of the ease factor
    and bounds that rounding does not move.  Timestamps, counters and the
    fields of stored records are integers well inside the range a double
    holds exactly and are embedded as [Z]; the ease factor of a stored record
    is a decimal literal and is embedded as [Q]. *)

From Stdlib Require Import ZArith QArith Qround List String Ascii Bool Lia Lqa.
From Stdlib Require Import SpecFloat.
Import ListNotations.

Open Scope Z_scope.

(** The four literals of the [status] union in the [user_review_deck] schema
    and in the arguments of [saveItem].  [SRSOutput.status] ranges over the
    last three only. *)
Inductive Status : Type := New | Learning | Review | Mastered.

(** Completion of a JavaScript call: it returns a value or throws. *)
Inductive Completion (A : Type) : Type :=
| Returned (a : A)
| Thrown (msg : string).
Arguments Returned {A} a.
Arguments Thrown {A} msg.

(** [x < y] on rationals as a boolean. *)
Definition Qltb (x y : Q) : bool := negb (Qle_bool y x).

(** [24 * 60 * 60 * 1000] *)
Definition oneDayInMs : Z := 24 * 60 * 60 * 1000.

(* ====================================================================== *)
(** ** Doubles *)
(* ====================================================================== *)

Module Float64.

(** The binary64 format: 53 bits of precision, infinities at exponent
    1024.  A double is a [spec_float]: a signed zero, a signed infinity, NaN
    or [(-1)^s * m * 2^e]. *)
Definition prec : Z := 53.
Definition emax : Z := 1024.
Definition float : Type := spec_float.

(** [+], [-], [*] and [/] of JavaScript, each rounded to the nearest double,
    ties to even. *)
Definition add : float -> float -> float := SFadd prec emax.
Definition sub : float -> float -> float := SFsub prec emax.
Definition mul : float -> float -> float := SFmul prec emax.
Definition div : float -> float -> float := SFdiv prec emax.

(** [<], [<=] and [===] on numbers: false as soon as one side is NaN, and
    the two zeros are equal. *)
Definition ltb : float -> float -> bool := SFltb.
Definition leb : float -> float -> bool := SFleb.
Definition eqb : float -> float -> bool := SFeqb.

(** The value of an integer literal, and of any integer a number holds. *)
Definition ofZ (z : Z) : float := binary_normalize prec emax z 0 false.

(** The value of the decimal literal with digits [digits], the last [places]
    of them after the point: the double nearest to [digits / 10^places].  Both
    are integers a double holds exactly where the source writes such a
    literal, and division rounds to nearest. *)
Definition decimal (digits : Z) (places : nat) : float :=
  div (ofZ digits) (ofZ (10 ^ Z.of_nat places)).


(** The double nearest to [n / d], ties to even, with sign [s]: the digits
    of the quotient and the position of the remainder, rounded as a division
    is. *)
Definition nearest (s : bool) (n d : positive) : float :=
  let '(mz, ez, lz) := SFdiv_core_binary prec emax (Z.pos n) 0 (Z.pos d) 0 in
  binary_round_aux prec emax s mz ez lz.

(** [Math.ceil].  A double with a non-negative exponent is an integer;
    between -1 and 0 the result is the negative zero. *)
Definition ceil (x : float) : float :=
  match x with
  | S754_finite s m e =>
      if 0 <=? e then x
      else
        let d := 2 ^ (- e) in
        if s then
          let q := Z.pos m / d in
          if q =? 0 then S754_zero true else ofZ (- q)
        else ofZ ((Z.pos m + d - 1) / d)
  | _ => x
  end.

(** [parseFloat(x.toFixed(2))].  [toFixed] prints NaN and the infinities by
    name, and [parseFloat] reads them back.  Otherwise it works on the
    absolute value: it takes the integer [n] with [n / 100] nearest to it, the
    larger one of two, prints [n / 100] with two decimals behind the sign, and
    [parseFloat] reads the double nearest to that.  A double with a
    non-negative exponent is an integer, printed exactly (or, from [1e21] on,
    by its shortest digits) and read back as itself. *)
Definition toFixed2 (x : float) : float :=
  match x with
  | S754_nan => S754_nan
  | S754_infinity _ => x
  | S754_zero _ => S754_zero false
  | S754_finite s m e =>
      if 0 <=? e then x
      else
        let d := 2 ^ (- e) in
        match (2 * 100 * Z.pos m + d) / (2 * d) with
        | Z.pos n => nearest s n 100
        | _ => S754_zero s
        end
  end.

End Float64.

(* ====================================================================== *)
(** ** The SM-2 utility *)
(* ====================================================================== *)

Module SrsAlgorithm.

Definition MIN_EASE_FACTOR : Float64.float := Float64.decimal 13 1.
Definition DEFAULT_EASE_FACTOR : Float64.float := Float64.decimal 25 1.

Record SRSInput : Type := mkInput {
  grade : Float64.float;
  previousEaseFactor : Float64.float;
  previousInterval : Float64.float
}.

Record SRSOutput : Type := mkOutput {
  interval : Float64.float;
  nextReview : Float64.float;
  easeFactor : Float64.float;
  status : Status
}.

(** Step 1: [previousEaseFactor + (0.1 - (5 - grade) * (0.08 + (5 - grade) *
    0.02))], then the floor.  This is the value of the local [newEaseFactor]
    from line 199 on. *)
Definition newEaseFactor (grade ef : Float64.float) : Float64.float :=
  let d := Float64.sub (Float64.ofZ 5) grade in
  let e :=
    Float64.add ef
      (Float64.sub (Float64.decimal 1 1)
         (Float64.mul d
            (Float64.add (Float64.decimal 8 2)
               (Float64.mul d (Float64.decimal 2 2))))) in
  if Float64.ltb e MIN_EASE_FACTOR then MIN_EASE_FACTOR else e.

(** Step 2: the local [newInterval]. *)
Definition newInterval (grade ef prev : Float64.float) : Float64.float :=
  if Float64.ltb grade (Float64.ofZ 3) then Float64.ofZ 1
  else if Float64.eqb prev (Float64.ofZ 0) then Float64.ofZ 1
  else if Float64.eqb prev (Float64.ofZ 1) then Float64.ofZ 6
  else Float64.ceil (Float64.mul prev (newEaseFactor grade ef)).

(** [24 * 60 * 60 * 1000] *)
Definition oneDayInMs : Float64.float :=
  Float64.mul
    (Float64.mul (Float64.mul (Float64.ofZ 24) (Float64.ofZ 60))
       (Float64.ofZ 60))
    (Float64.ofZ 1000).

(** Step 4: the local [status]. *)
Definition newStatus (grade ivl : Float64.float) : Status :=
  if Float64.ltb grade (Float64.ofZ 3) then Learning
  else if Float64.ltb (Float64.ofZ 180) ivl then Mastered
  else Review.

(** [calculateSRS]; [now] is the value read from [Date.now()]. *)
Definition calculateSRS (now : Float64.float) (input : SRSInput) : SRSOutput :=
  let g := grade input in
  let ivl := newInterval g (previousEaseFactor input) (previousInterval input) in
  {| interval := ivl;
     nextReview := Float64.add now (Float64.mul ivl oneDayInMs);
     easeFactor :=
       Float64.toFixed2 (newEaseFactor g (previousEaseFactor input));
     status := newStatus g ivl |}.

(** [getInitialSRSState] *)
Definition getInitialSRSState (now : Float64.float) : SRSOutput :=
  {| interval := Float64.ofZ 0;
     nextReview := now;
     easeFactor := DEFAULT_EASE_FACTOR;
     status := New |}.

End SrsAlgorithm.

(* ====================================================================== *)
(** ** The SM-2 utility, in exact arithmetic *)
(* ====================================================================== *)

(** [calculateSRS] once more, read in exact arithmetic: the same steps on
    integers and rationals, without the rounding of double arithmetic.  Where
    a product of the previous interval and the ease factor lies within a
    rounding error of an integer, [Math.ceil] in the source can give one more
    than the ceiling here; statements about this module are about the branch
    taken, the floor of the ease factor, and bounds that hold either way. *)
Module Scheduler.

Definition MIN_EASE_FACTOR : Q := 1.3.
Definition DEFAULT_EASE_FACTOR : Q := 2.5.

Record SRSInput : Type := mkInput {
  grade : Z;
  previousEaseFactor : Q;
  previousInterval : Z
}.

Record SRSOutput : Type := mkOutput {
  interval : Z;
  nextReview : Z;
  easeFactor : Q;
  status : Status
}.

(** [parseFloat(x.toFixed(2))].  [toFixed] works on the absolute value and
    re-attaches the sign; among the two nearest hundredths it takes the
    larger one. *)
Definition roundHundredths (x : Q) : Q :=
  Qmake (Qfloor (x * 100 + (1 # 2))%Q) 100.

Definition toFixed2 (x : Q) : Q :=
  if Qltb x 0 then (- roundHundredths (- x))%Q else roundHundredths x.

(** Step 1 of [calculateSRS], before the floor is applied:
    [EF + (0.1 - (5 - q) * (0.08 + (5 - q) * 0.02))]. *)
Definition rawEaseFactor (g : Z) (ef : Q) : Q :=
  (ef + (0.1 - (5 - inject_Z g) * (0.08 + (5 - inject_Z g) * 0.02)))%Q.

(** Step 1 with the floor: the value of the local [newEaseFactor] from
    line 199 on. *)
Definition newEaseFactor (g : Z) (ef : Q) : Q :=
  let e := rawEaseFactor g ef in
  if Qltb e MIN_EASE_FACTOR then MIN_EASE_FACTOR else e.

(** Step 2: the local [newInterval]. *)
Definition newInterval (g : Z) (ef : Q) (prev : Z) : Z :=
  if g <? 3 then 1
  else if prev =? 0 then 1
  else if prev =? 1 then 6
  else Qceiling (inject_Z prev * newEaseFactor g ef)%Q.

(** Step 4: the local [status]. *)
Definition newStatus (g : Z) (ivl : Z) : Status :=
  if g <? 3 then Learning
  else if 180 <? ivl then Mastered
  else Review.

(** [calculateSRS]; [now] is the value read from [Date.now()]. *)
Definition calculateSRS (now : Z) (input : SRSInput) : SRSOutput :=
  let g := grade input in
  let ef := newEaseFactor g (previousEaseFactor input) in
  let ivl := newInterval g (previousEaseFactor input) (previousInterval input) in
  {| interval := ivl;
     nextReview := now + ivl * oneDayInMs;
     easeFactor := toFixed2 ef;
     status := newStatus g ivl |}.

(** The body of [calculateSRS] has no [throw] and performs only number
    arithmetic, [Math.ceil], [toFixed(2)] and [parseFloat]: a call always
    completes by returning. *)
Definition calculateSRS_call (now : Z) (input : SRSInput)
  : Completion SRSOutput :=
  Returned (calculateSRS now input).

(** [getInitialSRSState] *)
Definition getInitialSRSState (now : Z) : SRSOutput :=
  {| interval := 0;
     nextReview := now;
     easeFactor := DEFAULT_EASE_FACTOR;
     status := New |}.

(** A stored ease factor: a whole number of hundredths. *)
Definition hundredths (q : Q) : Prop := exists n : Z, q == n # 100.

(** The inputs the interface documents: a grade from 0 to 5 and a previous
    interval that is not negative. *)
Definition validInput (i : SRSInput) : Prop :=
  0 <= grade i <= 5 /\ 0 <= previousInterval i.

(** A call that ended with an error instead of a result. *)
Definition rejected (c : Completion SRSOutput) : Prop :=
  exists msg, c = Thrown msg.

End Scheduler.

(* ====================================================================== *)
(** ** The review store: [saveItem] of [backend/saveToSRS.ts] *)
(* ====================================================================== *)

(** [itemType] of [saveItem], [type] of a deck record and of a queue item. *)
Inductive ItemType : Type := sentence | grammar | character.

Module Store.

(** The local [idField]. *)
Inductive IdField : Type := sentenceId_f | grammarId_f | characterId_f.

(** A document of the [user_review_deck] table.  [_id] is the identifier the
    database assigned to the document ([_creationTime] is not used by
    [saveItem] and is left out; creation order is the order of the list that
    holds the table). *)
Record Card : Type := mkCard {
  _id : N;
  userId : string;
  type : ItemType;
  sentenceId : option string;
  grammarId : option string;
  characterId : option string;
  nextReview : Z;
  interval : Z;
  easeFactor : Q;
  status : Status;
  lastReview : option Z
}.

(** The database as [saveItem] sees it: the table in creation order and the
    identifier the next [insert] will hand out. *)
Record Db : Type := mkDb {
  user_review_deck : list Card;
  nextId : N
}.

(** The arguments of the mutation. *)
Module Args.
Record t : Type := mk {
  userId : string;
  itemId : string;
  itemType : ItemType;
  nextReview : Z;
  interval : Z;
  easeFactor : Q;
  status : Status
}.
End Args.

Inductive Action : Type := updated | created.

Record SaveResult : Type := mkResult {
  action : Action;
  id : N
}.

(** The [switch] on [args.itemType]. *)
Definition idFieldOf (ty : ItemType) : IdField :=
  match ty with
  | sentence => sentenceId_f
  | grammar => grammarId_f
  | character => characterId_f
  end.

(** [q.field(idField)] on a document. *)
Definition field (f : IdField) (c : Card) : option string :=
  match f with
  | sentenceId_f => sentenceId c
  | grammarId_f => grammarId c
  | characterId_f => characterId c
  end.

(** [q.eq(q.field(idField), normalizedId)]: an absent field equals no
    string. *)
Definition fieldIs (f : IdField) (v : string) (c : Card) : bool :=
  match field f c with
  | Some x => String.eqb x v
  | None => false
  end.

(** [.withIndex("by_user", q => q.eq("userId", args.userId))]: the user's
    documents, in creation order. *)
Definition by_user (u : string) (rows : list Card) : list Card :=
  filter (fun c => String.eqb (userId c) u) rows.

(** The query of step 2, up to [.first()]. *)
Definition existingCard (db : Db) (args : Args.t) : option Card :=
  find (fieldIs (idFieldOf (Args.itemType args)) (Args.itemId args))
       (by_user (Args.userId args) (user_review_deck db)).

(** The object handed to [ctx.db.patch] in step 3a, applied to a document. *)
Definition patchFields (now : Z) (args : Args.t) (c : Card) : Card :=
  {| _id := _id c;
     userId := userId c;
     type := type c;
     sentenceId := sentenceId c;
     grammarId := grammarId c;
     characterId := characterId c;
     nextReview := Args.nextReview args;
     interval := Args.interval args;
     easeFactor := Args.easeFactor args;
     status := Args.status args;
     lastReview := Some now |}.

(** [ctx.db.patch(id, fields)]: the document with that identifier is
    rewritten where it stands. *)
Definition patch (i : N) (upd : Card -> Card) (rows : list Card) : list Card :=
  map (fun c => if N.eqb (_id c) i then upd c else c) rows.

(** [newCardData] of step 3b with [newCardData[idField] = normalizedId],
    under the identifier given by [insert]. *)
Definition newCardData (i : N) (now : Z) (args : Args.t) : Card :=
  let f := idFieldOf (Args.itemType args) in
  let v := Args.itemId args in
  {| _id := i;
     userId := Args.userId args;
     type := Args.itemType args;
     sentenceId := match f with sentenceId_f => Some v | _ => None end;
     grammarId := match f with grammarId_f => Some v | _ => None end;
     characterId := match f with characterId_f => Some v | _ => None end;
     nextReview := Args.nextReview args;
     interval := Args.interval args;
     easeFactor := Args.easeFactor args;
     status := Args.status args;
     lastReview := Some now |}.

(** The handler of [saveItem].  A Convex mutation runs as one transaction, so
    it is a function from the database before to the database after and the
    returned object; [now] is the server's [Date.now()]. *)
Definition saveItem (now : Z) (args : Args.t) (db : Db) : Db * SaveResult :=
  match existingCard db args with
  | Some c =>
      ({| user_review_deck :=
            patch (_id c) (patchFields now args) (user_review_deck db);
          nextId := nextId db |},
       {| action := updated; id := _id c |})
  | None =>
      ({| user_review_deck :=
            user_review_deck db ++ [newCardData (nextId db) now args];
          nextId := N.succ (nextId db) |},
       {| action := created; id := nextId db |})
  end.

(** What a deployment takes for an identifier: [isId table s] says whether
    the string [s] is an identifier of [table] there.  It is the check behind
    [v.id(table)]; the source fixes where the check is made, in the argument
    validator of the mutation and in the schema of the table, and the
    deployment what passes it. *)
Definition IdCheck : Type := string -> string -> bool.

(** The tables the three identifier fields point to in the schema of
    [user_review_deck]. *)
Definition tableOf (f : IdField) : string :=
  match f with
  | sentenceId_f => "sentences"
  | grammarId_f => "grammar"
  | characterId_f => "characters"
  end.

(** The validator of [args] (lines 13 to 34).  The types of [Args.t] carry
    what it asks of the other fields; [userId] has to be an identifier of
    [users]. *)
Definition validArgs (isId : IdCheck) (args : Args.t) : bool :=
  isId "users"%string (Args.userId args).

(** The schema of [user_review_deck] on the document of step 3b: the
    identifier field has to hold an identifier of its table.  A patch leaves
    the identifier fields as they are. *)
Definition validInsert (isId : IdCheck) (args : Args.t) : bool :=
  isId (tableOf (idFieldOf (Args.itemType args))) (Args.itemId args).

(** A call of the mutation [saveItem]: the arguments are validated before
    the handler is entered, and a document that does not fit the schema makes
    the insert throw; a mutation that throws leaves the database as it
    was. *)
Definition callSaveItem (isId : IdCheck) (now : Z) (args : Args.t) (db : Db)
  : Db * Completion SaveResult :=
  if validArgs isId args then
    match existingCard db args with
    | Some _ => let (d', r) := saveItem now args db in (d', Returned r)
    | None =>
        if validInsert isId args
        then let (d', r) := saveItem now args db in (d', Returned r)
        else (db, Thrown "SchemaValidationError")
    end
  else (db, Thrown "ArgumentValidationError").

(** The documents [saveItem] would find for the composite key of [args]:
    same user, and the identifier field selected by the item type holds the
    item identifier. *)
Definition hasKey (args : Args.t) (c : Card) : bool :=
  String.eqb (userId c) (Args.userId args)
  && fieldIs (idFieldOf (Args.itemType args)) (Args.itemId args) c.

Definition recordsFor (args : Args.t) (db : Db) : list Card :=
  filter (hasKey args) (user_review_deck db).

(** Two argument objects address the same composite key. *)
Definition sameKey (a b : Args.t) : Prop :=
  Args.userId a = Args.userId b /\
  Args.itemType a = Args.itemType b /\
  Args.itemId a = Args.itemId b.

(** A document carries exactly the identifier field of its [type]; this is
    how [saveItem] builds documents. *)
Definition typed (c : Card) : Prop :=
  match type c with
  | sentence => sentenceId c <> None /\ grammarId c = None /\ characterId c = None
  | grammar => sentenceId c = None /\ grammarId c <> None /\ characterId c = None
  | character => sentenceId c = None /\ grammarId c = None /\ characterId c <> None
  end.

End Store.

(* ====================================================================== *)
(** ** The offline queue: the pending-review part of [OfflineCache] *)
(* ====================================================================== *)

Module OfflineCache.

Record PendingReviewAction : Type := mkPending {
  id : string;
  itemId : string;
  itemType : ItemType;
  grade : Z;
  timestamp : Z
}.

(** [Omit<PendingReviewAction, "id" | "timestamp">] *)
Record ReviewActionInput : Type := mkActionInput {
  in_itemId : string;
  in_itemType : ItemType;
  in_grade : Z
}.

(** An entry of the stored list: an action, or any other JSON value. *)
Inductive Entry : Type :=
| Queued (a : PendingReviewAction)
| Foreign (json : string).

(** What is kept under [STORAGE_KEYS.PENDING_SYNC], by what [JSON.parse]
    makes of the stored string: a list, which [JSON.stringify] gives for a
    list; a value that is not a list ([null], a number, a string, an object);
    or an error, for text that is not JSON. *)
Inductive Stored : Type :=
| Json (entries : list Entry)
| NonArray (raw : string)
| Unparseable (raw : string).

(** The cell of [AsyncStorage] under the pending-sync key; [None] is an
    absent key.  The other three keys are independent of it. *)
Definition Storage : Type := option Stored.

(** The three wrappers of the [Storage] object.  Each catches the error of
    the underlying [AsyncStorage] call and logs it; [ok] says whether the
    underlying call went through. *)
Definition getItem (ok : bool) (st : Storage) : option Stored :=
  if ok then st else None.

Definition setItem (ok : bool) (v : Stored) (st : Storage) : Storage :=
  if ok then Some v else st.

Definition removeItem (ok : bool) (st : Storage) : Storage :=
  if ok then None else st.

(** What [getPendingReviews] returns: declared a list of actions, it is
    whatever [JSON.parse] gave. *)
Inductive Parsed : Type :=
| IsArray (entries : list Entry)
| NotArray (raw : string).

(** [getPendingReviews]: the empty list without a stored string (an empty
    string counts as none) and when [JSON.parse] throws. *)
Definition getPendingReviews (ok : bool) (st : Storage) : Parsed :=
  match getItem ok st with
  | None => IsArray []
  | Some (Json entries) => IsArray entries
  | Some (NonArray raw) => NotArray raw
  | Some (Unparseable _) => IsArray []
  end.

(** The action [queuePendingReview] builds from its argument and the drawn
    identifier and time. *)
Definition stamped (c : string * Z * ReviewActionInput) : PendingReviewAction :=
  let '(uuid, now, action) := c in
  {| id := uuid;
     itemId := in_itemId action;
     itemType := in_itemType action;
     grade := in_grade action;
     timestamp := now |}.

(** [queuePendingReview]; [uuid] and [now] are the values drawn from
    [crypto.randomUUID()] and [Date.now()], [rd] and [wr] the fate of the read
    and of the write.  [pending.push] throws a [TypeError] when [pending] is
    not a list; nothing catches it. *)
Definition queuePendingReview (uuid : string) (now : Z) (rd wr : bool)
  (action : ReviewActionInput) (st : Storage) : Storage * Completion unit :=
  match getPendingReviews rd st with
  | NotArray _ => (st, Thrown "TypeError")
  | IsArray pending =>
      (setItem wr (Json (pending ++ [Queued (stamped (uuid, now, action))])) st,
       Returned tt)
  end.

(** [clearPendingReviews] *)
Definition clearPendingReviews (ok : bool) (st : Storage) : Storage :=
  removeItem ok st.

(** The operations [OfflineCache] offers on the pending queue. *)
Inductive QueueOp : Type :=
| OpQueue (uuid : string) (now : Z) (rd wr : bool) (action : ReviewActionInput)
| OpGet (ok : bool)
| OpClear (ok : bool).

Definition runOp (st : Storage) (op : QueueOp) : Storage :=
  match op with
  | OpQueue uuid now rd wr action =>
      fst (queuePendingReview uuid now rd wr action st)
  | OpGet _ => st
  | OpClear ok => clearPendingReviews ok st
  end.

(** Operations one after the other. *)
Definition runOps (st : Storage) (ops : list QueueOp) : Storage :=
  fold_left runOp ops st.

(** The entries the calls of [queuePendingReview] among [ops] build. *)
Definition queuedBy (ops : list QueueOp) : list Entry :=
  flat_map
    (fun op => match op with
               | OpQueue uuid now _ _ action =>
                   [Queued (stamped (uuid, now, action))]
               | _ => []
               end)
    ops.

(** Calls of [queuePendingReview] one after the other, the storage working
    throughout. *)
Definition enqueueAll (calls : list (string * Z * ReviewActionInput))
  (st : Storage) : Storage :=
  fold_left
    (fun st c => let '(uuid, now, action) := c in
                 fst (queuePendingReview uuid now true true action st))
    calls st.

(** The persisted queue: the stored list as a working read finds it, empty
    where no list is stored. *)
Definition persisted (st : Storage) : list Entry :=
  match getPendingReviews true st with
  | IsArray entries => entries
  | NotArray _ => []
  end.

(** The identifier an operation draws from [crypto.randomUUID()], if it
    draws one, is none of [taken]. *)
Definition drawsOutside (taken : list string) (op : QueueOp) : Prop :=
  match op with
  | OpQueue uuid _ _ _ _ => ~ In uuid taken
  | _ => True
  end.

(** What is stored does not parse to a value that is not a list: a list is
    stored, or nothing, or text that is not JSON. *)
Definition holdsList (st : Storage) : bool :=
  match st with
  | Some (NonArray _) => false
  | _ => true
  end.

End OfflineCache.

(* ====================================================================== *)
(** ** The review session: [SRSReviewScreen] *)
(* ====================================================================== *)

Module ReviewScreen.

(** [type ReviewState] *)
Inductive ReviewState : Type := dashboard | session | summary.

(** A document returned by [api.fetchSentences.get], with the fields the
    screen reads. *)
Record Sentence : Type := mkSentence {
  s_id : string;
  original : string;
  pinyin : string;
  translation : string
}.

(** [interface ReviewItem]; [status] ranges over [New], [Learning] and
    [Review]. *)
Record ReviewItem : Type := mkItem {
  _id : string;
  type : ItemType;
  content : Sentence;
  due : bool;
  status : Status
}.

Record SessionResults : Type := mkResults {
  correct : Z;
  incorrect : Z;
  xpGained : Z
}.

(** The state of the component: the result of the [sentences] query
    ([None] while it is [undefined]) and the [useState] cells.  [isPlaying] and
    [audioLoading] belong to audio playback only and are left out. *)
Record Screen : Type := mkScreen {
  sentences : option (list Sentence);
  viewState : ReviewState;
  sessionQueue : list ReviewItem;
  currentIndex : nat;
  isFlipped : bool;
  sessionResults : SessionResults
}.

(** The screen together with what its handlers can reach: the backend
    database and the device's offline storage. *)
Record World : Type := mkWorld {
  screen : Screen;
  db : Store.Db;
  offline : OfflineCache.Storage
}.

Definition USER_ID : string := "users:123".

(** [sentences.map((s, i) => ...)] *)
Fixpoint mapi_from {A B : Type} (f : A -> nat -> B) (i : nat) (l : list A)
  : list B :=
  match l with
  | [] => []
  | x :: l' => f x i :: mapi_from f (S i) l'
  end.

Definition mockItem (s : Sentence) (i : nat) : ReviewItem :=
  {| _id := s_id s;
     type := sentence;
     content := s;
     due := Nat.eqb (i mod 2) 0;
     status := if Nat.eqb (i mod 3) 0 then New
               else if Nat.eqb (i mod 3) 1 then Learning
               else Review |}.

(** The [reviewDeck] memo. *)
Definition reviewDeck (s : Screen) : option (list ReviewItem) :=
  match sentences s with
  | None => None
  | Some l => Some (mapi_from mockItem 0 l)
  end.

(** [reviewDeck?.filter(i => i.due) || []] *)
Definition dueItems (s : Screen) : list ReviewItem :=
  match reviewDeck s with
  | None => []
  | Some deck => filter due deck
  end.

(** [startSession] *)
Definition startSession (s : Screen) : Screen :=
  match dueItems s with
  | [] => s
  | _ :: _ =>
      {| sentences := sentences s;
         viewState := session;
         sessionQueue := dueItems s;
         currentIndex := 0;
         isFlipped := false;
         sessionResults := {| correct := 0; incorrect := 0; xpGained := 0 |} |}
  end.

(** [handleFlip] *)
Definition handleFlip (s : Screen) : Screen :=
  {| sentences := sentences s;
     viewState := viewState s;
     sessionQueue := sessionQueue s;
     currentIndex := currentIndex s;
     isFlipped := true;
     sessionResults := sessionResults s |}.

(** [setViewState(v)] *)
Definition setViewState (v : ReviewState) (s : Screen) : Screen :=
  {| sentences := sentences s;
     viewState := v;
     sessionQueue := sessionQueue s;
     currentIndex := currentIndex s;
     isFlipped := isFlipped s;
     sessionResults := sessionResults s |}.

(** The object [handleGrade] passes to the mutation; [clientNow] is the
    device's [Date.now()]. *)
Definition gradeArgs (clientNow : Z) (g : Z) (currentItem : ReviewItem)
  : Store.Args.t :=
  {| Store.Args.userId := USER_ID;
     Store.Args.itemId := _id currentItem;
     Store.Args.itemType := type currentItem;
     Store.Args.nextReview := clientNow + g * 86400000;
     Store.Args.interval := g;
     Store.Args.easeFactor := 2.5;
     Store.Args.status := if g <? 3 then Learning else Review |}.


(** Whether the mutation reaches the backend.  [Online t isId]: it is
    called there at server time [t], on a deployment whose identifier check is
    [isId]; [Unreachable err]: the promise rejects with [err] and the database
    is not touched. *)
Inductive Network : Type :=
| Online (serverNow : Z) (isId : Store.IdCheck)
| Unreachable (err : string).

(** [saveToSRS], the [useMutation] handle on [api.saveToSRS.saveItem]. *)
Definition saveToSRS (net : Network) (args : Store.Args.t) (d : Store.Db)
  : Store.Db * Completion Store.SaveResult :=
  match net with
  | Online t isId => Store.callSaveItem isId t args d
  | Unreachable err => (d, Thrown err)
  end.

(** Steps 2 and 3 of [handleGrade]. *)
Definition recordGrade (g : Z) (s : Screen) : Screen :=
  let prev := sessionResults s in
  let results :=
    {| correct := if 3 <=? g then correct prev + 1 else correct prev;
       incorrect := if g <? 3 then incorrect prev + 1 else incorrect prev;
       xpGained := xpGained prev + g * 10 |} in
  if Z.of_nat (currentIndex s) <? Z.of_nat (List.length (sessionQueue s)) - 1 then
    {| sentences := sentences s;
       viewState := viewState s;
       sessionQueue := sessionQueue s;
       currentIndex := S (currentIndex s);
       isFlipped := false;
       sessionResults := results |}
  else
    {| sentences := sentences s;
       viewState := summary;
       sessionQueue := sessionQueue s;
       currentIndex := currentIndex s;
       isFlipped := isFlipped s;
       sessionResults := results |}.

(** [handleGrade].  The handler awaits the mutation without a [try]: when the
    promise rejects, the handler's own promise rejects there and steps 2 and
    3 do not run.  Reading [currentItem._id] throws when
    [sessionQueue[currentIndex]] is [undefined].  The result is the world
    the handler leaves and how it completed. *)
Definition handleGrade (clientNow : Z) (net : Network) (g : Z) (w : World)
  : World * Completion unit :=
  match nth_error (sessionQueue (screen w)) (currentIndex (screen w)) with
  | None => (w, Thrown "TypeError")
  | Some currentItem =>
      match saveToSRS net (gradeArgs clientNow g currentItem) (db w) with
      | (d', Thrown err) =>
          ({| screen := screen w; db := d'; offline := offline w |},
           Thrown err)
      | (d', Returned _) =>
          ({| screen := recordGrade g (screen w);
              db := d';
              offline := offline w |},
           Returned tt)
      end
  end.

(** Which of the four [return]s of the component renders. *)
Inductive View : Type := LoadingView | DashboardView | SummaryView | ActiveView.

Definition view (s : Screen) : View :=
  match reviewDeck s with
  | None => LoadingView
  | Some _ =>
      match viewState s with
      | dashboard => DashboardView
      | summary => SummaryView
      | session => ActiveView
      end
  end.

(** The four [GradeButton]s and the grade each passes to [handleGrade]. *)
Inductive GradeButton : Type := Again | Hard | Good | Easy.

Definition gradeOf (b : GradeButton) : Z :=
  match b with
  | Again => 1
  | Hard => 2
  | Good => 3
  | Easy => 5
  end.

(** What can happen to the mounted screen: the reactive query delivers a new
    result, or the learner presses a control. *)
Inductive Event : Type :=
| SentencesUpdate (result : option (list Sentence))
| ClickStartSession
| ClickShowAnswer
| ClickGrade (b : GradeButton) (clientNow : Z) (net : Network)
| ClickExit
| ClickBackToDashboard.

Definition onScreen (f : Screen -> Screen) (w : World) : World :=
  {| screen := f (screen w); db := db w; offline := offline w |}.

Definition setSentences (r : option (list Sentence)) (s : Screen) : Screen :=
  {| sentences := r;
     viewState := viewState s;
     sessionQueue := sessionQueue s;
     currentIndex := currentIndex s;
     isFlipped := isFlipped s;
     sessionResults := sessionResults s |}.

(** One event.  A control acts only in the view that renders it; the grade
    buttons are rendered only once the card is flipped. *)
Definition step (w : World) (e : Event) : World :=
  match e, view (screen w) with
  | SentencesUpdate r, _ => onScreen (setSentences r) w
  | ClickStartSession, DashboardView => onScreen startSession w
  | ClickShowAnswer, ActiveView => onScreen handleFlip w
  | ClickGrade b clientNow net, ActiveView =>
      if isFlipped (screen w)
      then fst (handleGrade clientNow net (gradeOf b) w)
      else w
  | ClickExit, ActiveView => onScreen (setViewState dashboard) w
  | ClickBackToDashboard, SummaryView => onScreen (setViewState dashboard) w
  | _, _ => w
  end.

Definition run (w : World) (es : list Event) : World :=
  fold_left step es w.

(** The session that is active in [w] is still the active one before each
    event of [es]. *)
Fixpoint staysActive (w : World) (es : list Event) : Prop :=
  match es with
  | [] => True
  | e :: es' => viewState (screen w) = session /\ staysActive (step w e) es'
  end.

(** The freshly mounted component. *)
Definition initialScreen : Screen :=
  {| sentences := None;
     viewState := dashboard;
     sessionQueue := [];
     currentIndex := 0;
     isFlipped := false;
     sessionResults := {| correct := 0; incorrect := 0; xpGained := 0 |} |}.

End ReviewScreen.

(* ====================================================================== *)
(** ** Sample data *)
(* ====================================================================== *)

Module Samples.

Definition demoArgs (next ivl : Z) (st : Status) : Store.Args.t :=
  {| Store.Args.userId := "users:123";
     Store.Args.itemId := "sentences:7";
     Store.Args.itemType := sentence;
     Store.Args.nextReview := next;
     Store.Args.interval := ivl;
     Store.Args.easeFactor := 2.5;
     Store.Args.status := st |}.

Definition emptyDb : Store.Db :=
  {| Store.user_review_deck := []; Store.nextId := 0 |}.

(** Two queued grades. *)
Definition pendingA : OfflineCache.PendingReviewAction :=
  OfflineCache.mkPending "a1" "sentences:7" sentence 3 1000.

Definition pendingB : OfflineCache.PendingReviewAction :=
  OfflineCache.mkPending "b2" "sentences:9" sentence 1 2000.

Definition twoQueued : OfflineCache.Storage :=
  Some (OfflineCache.Json
          [OfflineCache.Queued pendingA; OfflineCache.Queued pendingB]).

(** A stand-in for the backend that takes every string for an identifier,
    as a test double of the mutation does. *)
Definition standIn : Store.IdCheck := fun _ _ => true.

(** A deployment none of whose identifiers has a colon in it. *)
Definition deployment : Store.IdCheck :=
  fun _ s =>
    forallb (fun c => negb (Ascii.eqb c (ascii_of_nat 58)))
            (list_ascii_of_string s).

(** Three sentences as the query delivers them; the mock deck marks the
    first and the third as due. *)
Definition threeSentences : list ReviewScreen.Sentence :=
  [ ReviewScreen.mkSentence "sentences:7" "ni hao" "ni3 hao3" "hello";
    ReviewScreen.mkSentence "sentences:8" "xie xie" "xie4 xie" "thanks";
    ReviewScreen.mkSentence "sentences:9" "zai jian" "zai4 jian4" "goodbye" ].

Definition fiveSentences : list ReviewScreen.Sentence :=
  threeSentences
  ++ [ ReviewScreen.mkSentence "sentences:10" "zao" "zao3" "morning";
       ReviewScreen.mkSentence "sentences:11" "wan an" "wan3 an1" "good night" ].

(** The mounted screen before the query has answered, an empty backend and
    an empty offline storage. *)
Definition freshWorld : ReviewScreen.World :=
  {| ReviewScreen.screen := ReviewScreen.initialScreen;
     ReviewScreen.db := emptyDb;
     ReviewScreen.offline := None |}.

(** The query answers and the learner starts a session. *)
Definition startedWorld : ReviewScreen.World :=
  ReviewScreen.run freshWorld
    [ ReviewScreen.SentencesUpdate (Some threeSentences);
      ReviewScreen.ClickStartSession ].

(** ... and turns the first card over. *)
Definition flippedWorld : ReviewScreen.World :=
  ReviewScreen.step startedWorld ReviewScreen.ClickShowAnswer.

(** The first card of that session. *)
Definition firstItem : ReviewScreen.ReviewItem :=
  ReviewScreen.mockItem
    (ReviewScreen.mkSentence "sentences:7" "ni hao" "ni3 hao3" "hello") 0.




(** A card at interval 10 with ease factor 1.54, recalled with difficulty
    (grade 3) at time 5000. *)
Definition hardRecall : SrsAlgorithm.SRSInput :=
  SrsAlgorithm.mkInput (Float64.ofZ 3) (Float64.decimal 154 2) (Float64.ofZ 10).

Definition hardRecallOut : SrsAlgorithm.SRSOutput :=
  SrsAlgorithm.calculateSRS (Float64.ofZ 5000) hardRecall.

(** A card at interval 200 whose ease factor 1.305 is not a whole number of
    hundredths, recalled after a hesitation (grade 4). *)
Definition offGrid : SrsAlgorithm.SRSInput :=
  SrsAlgorithm.mkInput (Float64.ofZ 4) (Float64.decimal 1305 3)
    (Float64.ofZ 200).

Definition offGridOut : SrsAlgorithm.SRSOutput :=
  SrsAlgorithm.calculateSRS (Float64.ofZ 5000) offGrid.

(** The scenario of the specification: interval 6, ease factor 2.5,
    grade 3. *)
Definition scenario : SrsAlgorithm.SRSInput :=
  SrsAlgorithm.mkInput (Float64.ofZ 3) (Float64.decimal 25 1) (Float64.ofZ 6).

(** The learner presses Good while the backend cannot be reached. *)
Definition failedGood : ReviewScreen.World * Completion unit :=
  ReviewScreen.handleGrade 5000
    (ReviewScreen.Unreachable "Failed to fetch") 3 flippedWorld.

(** Events of an active session, among them a query result that makes a
    third item due, a grade that the deployment turns down and one that a
    stand-in backend takes. *)
Definition sessionEvents : list ReviewScreen.Event :=
  [ ReviewScreen.ClickShowAnswer;
    ReviewScreen.SentencesUpdate (Some fiveSentences);
    ReviewScreen.ClickGrade ReviewScreen.Good 5000
      (ReviewScreen.Online 5001 deployment);
    ReviewScreen.ClickGrade ReviewScreen.Good 6000
      (ReviewScreen.Online 6001 standIn);
    ReviewScreen.ClickShowAnswer ].

End Samples.

(* ====================================================================== *)
(** ** Reviews in a row *)
(* ====================================================================== *)

Module Reviews.

(** The input of [calculateSRS] for an item whose current state is [st],
    graded [g]: [previousEaseFactor] is the current ease factor and
    [previousInterval] the current interval, as the fields of [SRSInput] are
    documented. *)
Definition inputFrom (g : Z) (st : Scheduler.SRSOutput) : Scheduler.SRSInput :=
  {| Scheduler.grade := g;
     Scheduler.previousEaseFactor := Scheduler.easeFactor st;
     Scheduler.previousInterval := Scheduler.interval st |}.

(** Reviews one after the other, each starting from the state the one before
    returned; a review is the time it takes place and its grade. *)
Definition reviewAll (rs : list (Z * Z)) (st : Scheduler.SRSOutput)
  : Scheduler.SRSOutput :=
  fold_left
    (fun st r => Scheduler.calculateSRS (fst r) (inputFrom (snd r) st))
    rs st.

(** A state that can be stored and scheduled from again: ease factor at
    least 1.3 and a whole number of hundredths, interval not negative. *)
Definition stable (st : Scheduler.SRSOutput) : Prop :=
  (1.3 <= Scheduler.easeFactor st)%Q /\
  Scheduler.hundredths (Scheduler.easeFactor st) /\
  0 <= Scheduler.interval st.

(** What [calculateSRS] adds to the ease factor for the grades 0 to 5:
    [0.1 - (5 - q) * (0.08 + (5 - q) * 0.02)] evaluated. *)
Definition easeDelta (g : Z) : Q :=
  match g with
  | 0 => - 0.8
  | 1 => - 0.54
  | 2 => - 0.32
  | 3 => - 0.14
  | 4 => 0
  | _ => 0.1
  end.

End Reviews.

(* ====================================================================== *)
(** ** Histories of the review store *)
(* ====================================================================== *)

Module StoreInv.

(** The table before any call. *)
Definition initialDb : Store.Db :=
  {| Store.user_review_deck := []; Store.nextId := 0 |}.

(** Calls of [saveItem] one after the other; a call is the server time and
    the arguments. *)
Definition saveAll (calls : list (Z * Store.Args.t)) (db : Store.Db)
  : Store.Db :=
  fold_left (fun d c => fst (Store.saveItem (fst c) (snd c) d)) calls db.

(** Identifiers are pairwise distinct and below the next one to hand out,
    and every record carries exactly the identifier field of its type. *)
Definition wf (db : Store.Db) : Prop :=
  NoDup (map Store._id (Store.user_review_deck db)) /\
  Forall (fun c => (Store._id c < Store.nextId db)%N)
         (Store.user_review_deck db) /\
  Forall Store.typed (Store.user_review_deck db).

End StoreInv.

(* ====================================================================== *)
(** ** The dashboard and the running session of [SRSReviewScreen] *)
(* ====================================================================== *)

Module Dashboard.

Definition hasStatus (st : Status) (i : ReviewScreen.ReviewItem) : bool :=
  match st, ReviewScreen.status i with
  | New, New | Learning, Learning | Review, Review | Mastered, Mastered => true
  | _, _ => false
  end.

(** The [counts] object. *)
Record Counts : Type := mkCounts {
  new : nat;
  learning : nat;
  review : nat
}.

Definition counts (s : ReviewScreen.Screen) : Counts :=
  {| new := List.length (filter (hasStatus New) (ReviewScreen.dueItems s));
     learning :=
       List.length (filter (hasStatus Learning) (ReviewScreen.dueItems s));
     review :=
       List.length (filter (hasStatus Review) (ReviewScreen.dueItems s)) |}.

(** While a session is active, [sessionQueue[currentIndex]] is a card. *)
Definition cardAvailable (s : ReviewScreen.Screen) : Prop :=
  ReviewScreen.viewState s = ReviewScreen.session ->
  (ReviewScreen.currentIndex s
   < List.length (ReviewScreen.sessionQueue s))%nat.

(** The session statistics against the progress of the session: during a
    session as many grades are counted as cards are behind, in the summary as
    many as the session had cards; and the experience points lie between what
    the lowest and the highest grade of each kind give. *)
Definition statsConsistent (s : ReviewScreen.Screen) : Prop :=
  let r := ReviewScreen.sessionResults s in
  (ReviewScreen.viewState s = ReviewScreen.session ->
   ReviewScreen.correct r + ReviewScreen.incorrect r
   = Z.of_nat (ReviewScreen.currentIndex s)) /\
  (ReviewScreen.viewState s = ReviewScreen.summary ->
   ReviewScreen.correct r + ReviewScreen.incorrect r
   = Z.of_nat (List.length (ReviewScreen.sessionQueue s))) /\
  0 <= ReviewScreen.correct r /\
  0 <= ReviewScreen.incorrect r /\
  30 * ReviewScreen.correct r + 10 * ReviewScreen.incorrect r
  <= ReviewScreen.xpGained r
  <= 50 * ReviewScreen.correct r + 20 * ReviewScreen.incorrect r.

(** A world in which the component has just been mounted. *)
Definition mounted (w : ReviewScreen.World) : Prop :=
  ReviewScreen.screen w = ReviewScreen.initialScreen.

End Dashboard.

(* ====================================================================== *)
(** ** The caches of [OfflineCache]: sentences and review deck *)
(* ====================================================================== *)

Module Cache.

(** What is kept under [STORAGE_KEYS.SENTENCES] or
    [STORAGE_KEYS.REVIEW_DECK]: the [JSON.stringify] image of a list, which
    [JSON.parse] gives back, or some other text, on which [JSON.parse] throws.
    The items are opaque to the cache. *)
Inductive Stored (A : Type) : Type :=
| Json (items : list A)
| Unparseable (raw : string).
Arguments Json {A} items.
Arguments Unparseable {A} raw.

(** The cell of [AsyncStorage] under one of the two keys. *)
Definition Cell (A : Type) : Type := option (Stored A).

(** The wrappers of the [Storage] object on such a cell; [ok] says whether
    the underlying [AsyncStorage] call went through. *)
Definition getItem {A : Type} (ok : bool) (st : Cell A) : option (Stored A) :=
  if ok then st else None.

Definition setItem {A : Type} (ok : bool) (v : Stored A) (st : Cell A)
  : Cell A :=
  if ok then Some v else st.

(** [saveSentences] *)
Definition saveSentences {Sentence : Type} (ok : bool)
  (sentences : list Sentence) (st : Cell Sentence) : Cell Sentence :=
  match sentences with
  | [] => st
  | _ :: _ => setItem ok (Json sentences) st
  end.

(** [loadSentences] *)
Definition loadSentences {Sentence : Type} (ok : bool) (st : Cell Sentence)
  : list Sentence :=
  match getItem ok st with
  | None => []
  | Some (Json items) => items
  | Some (Unparseable _) => []
  end.

(** [saveReviewDeck] *)
Definition saveReviewDeck {ReviewItem : Type} (ok : bool)
  (deck : list ReviewItem) (st : Cell ReviewItem) : Cell ReviewItem :=
  setItem ok (Json deck) st.

(** [loadReviewDeck] *)
Definition loadReviewDeck {ReviewItem : Type} (ok : bool)
  (st : Cell ReviewItem) : list ReviewItem :=
  match getItem ok st with
  | None => []
  | Some (Json items) => items
  | Some (Unparseable _) => []
  end.

End Cache.

(* ====================================================================== *)
(** ** Audio generation: [generate] and [fetchMiniMaxWithRetry] *)
(* ====================================================================== *)

Module Audio.

Definition MAX_RETRIES : nat := 3.
Definition BASE_DELAY_MS : Z := 1000.

(** A finished run of [fetchMiniMaxWithRetry]: how it completed, how often
    [callMiniMaxAPI] was called, and the milliseconds waited between the
    attempts. *)
Record Run : Type := mkRun {
  outcome : Completion string;
  calls : nat;
  waited : Z
}.

(** The [while] loop of [fetchMiniMaxWithRetry], from the value [attempt] of
    the counter.  [api k] is how the call of [callMiniMaxAPI] number [k]
    completes; each turn of the loop makes one call and each failure counts
    [attempt] up, so the call made at [attempt] is call number [attempt].
    [None] is an exhausted [fuel], not a result of the function. *)
Fixpoint retryLoop (fuel : nat) (api : nat -> Completion string)
  (attempt : nat) (waited : Z) : option Run :=
  match fuel with
  | O => None
  | S fuel' =>
      if (attempt <? MAX_RETRIES)%nat then
        match api attempt with
        | Returned url => Some (mkRun (Returned url) (S attempt) waited)
        | Thrown _ =>
            let attempt' := S attempt in
            if (MAX_RETRIES <=? attempt')%nat then
              Some (mkRun (Thrown "Failed to generate audio after 3 attempts.")
                          attempt' waited)
            else
              retryLoop fuel' api attempt'
                (waited + BASE_DELAY_MS * 2 ^ (Z.of_nat attempt' - 1))
        end
      else Some (mkRun (Thrown "Unexpected retry loop exit") attempt waited)
  end.

(** [fetchMiniMaxWithRetry] *)
Definition fetchMiniMaxWithRetry (api : nat -> Completion string)
  : option Run :=
  retryLoop (S MAX_RETRIES) api 0 0.

(** A document of the [sentences] table, with the fields audio generation
    reads and writes. *)
Record SentenceDoc : Type := mkDoc {
  _id : string;
  original : string;
  audioUrl : option string
}.

(** [ctx.db.get(id)] *)
Definition get (id : string) (tbl : list SentenceDoc) : option SentenceDoc :=
  find (fun d => String.eqb (_id d) id) tbl.

(** [getSentenceData] *)
Definition getSentenceData (sentenceId : string) (tbl : list SentenceDoc)
  : Completion (string * option string) :=
  match get sentenceId tbl with
  | None => Thrown ("Sentence not found: " ++ sentenceId)
  | Some doc => Returned (original doc, audioUrl doc)
  end.

(** [saveAudioUrl]: [ctx.db.patch(sentenceId, { audioUrl })] *)
Definition saveAudioUrl (sentenceId : string) (url : string)
  (tbl : list SentenceDoc) : list SentenceDoc :=
  map (fun d => if String.eqb (_id d) sentenceId
                then {| _id := _id d;
                        original := original d;
                        audioUrl := Some url |}
                else d)
      tbl.

(** The test [if (existingAudio)]: an absent field and the empty string
    count as no audio. *)
Definition existing (a : option string) : option string :=
  match a with
  | Some u => if String.eqb u "" then None else Some u
  | None => None
  end.

Inductive AudioStatus : Type := skipped | success.

Record AudioResult : Type := mkAudio {
  status : AudioStatus;
  url : string
}.

(** A finished run of [generate]: the table it leaves, how it completed and
    how often the speech service was called. *)
Record Generated : Type := mkGenerated {
  table : list SentenceDoc;
  result : Completion AudioResult;
  ttsCalls : nat
}.

(** The handler of [generate], the sentence table not changing under it
    between its query and its mutation. *)
Definition generate (api : nat -> Completion string) (sentenceId : string)
  (tbl : list SentenceDoc) : option Generated :=
  match getSentenceData sentenceId tbl with
  | Thrown err => Some (mkGenerated tbl (Thrown err) 0)
  | Returned (text, existingAudio) =>
      match existing existingAudio with
      | Some u => Some (mkGenerated tbl (Returned (mkAudio skipped u)) 0)
      | None =>
          match fetchMiniMaxWithRetry api with
          | None => None
          | Some run =>
              match outcome run with
              | Returned audioUrl =>
                  Some (mkGenerated (saveAudioUrl sentenceId audioUrl tbl)
                          (Returned (mkAudio success audioUrl)) (calls run))
              | Thrown err => Some (mkGenerated tbl (Thrown err) (calls run))
              end
          end
      end
  end.

End Audio.

(* ====================================================================== *)
(** ** Saving an analysed journal: [saveJournalData] *)
(* ====================================================================== *)

Module Journal.

Inductive Difficulty : Type := Easy | Medium | Hard.

(** An element of [args.analysis.sentences]. *)
Record GeneratedSentence : Type := mkGenerated {
  original : string;
  pinyin : string;
  translation : string;
  difficulty : Difficulty;
  grammarPoint : option string;
  newCharacters : option (list string)
}.

Record Analysis : Type := mkAnalysis {
  title : string;
  sentences : list GeneratedSentence
}.

(** The document inserted into [journals]. *)
Module JournalDoc.
Record t : Type := mk {
  _id : N;
  userId : string;
  title : string;
  content : string;
  createdAt : Z;
  processed : bool
}.
End JournalDoc.

(** The document inserted into [sentences]. *)
Module SentenceDoc.
Record t : Type := mk {
  _id : N;
  userId : string;
  journalId : N;
  original : string;
  pinyin : string;
  translation : string;
  difficulty : Difficulty;
  tags : list string;
  source : string;
  createdAt : Z
}.
End SentenceDoc.

(** The two tables the mutation writes, in creation order, and the
    identifier the next [insert] hands out. *)
Record Db : Type := mkDb {
  journalRows : list JournalDoc.t;
  sentenceRows : list SentenceDoc.t;
  nextId : N
}.

(** The local [tags]: the grammar point when there is a non-empty one, then
    ["New Char"] when there are new characters. *)
Definition tagsOf (s : GeneratedSentence) : list string :=
  (match grammarPoint s with
   | Some g => if String.eqb g "" then [] else [g]
   | None => []
   end)
  ++ (match newCharacters s with
      | Some (_ :: _) => ["New Char"%string]
      | _ => []
      end).

(** The [for] loop over [args.analysis.sentences]; [clock k] is the value
    of the reading number [k] of [Date.now()] in the mutation, [k] the number
    of the next reading, [saved] the local [savedSentences]. *)
Fixpoint insertSentences (clock : nat -> Z) (k : nat) (userId : string)
  (journalId : N) (todo : list GeneratedSentence) (db : Db)
  (saved : list (GeneratedSentence * N)) : Db * list (GeneratedSentence * N) :=
  match todo with
  | [] => (db, saved)
  | s :: rest =>
      let sentenceId := nextId db in
      let doc :=
        {| SentenceDoc._id := sentenceId;
           SentenceDoc.userId := userId;
           SentenceDoc.journalId := journalId;
           SentenceDoc.original := original s;
           SentenceDoc.pinyin := pinyin s;
           SentenceDoc.translation := translation s;
           SentenceDoc.difficulty := difficulty s;
           SentenceDoc.tags := tagsOf s;
           SentenceDoc.source := "Journal";
           SentenceDoc.createdAt := clock k |} in
      insertSentences clock (S k) userId journalId rest
        {| journalRows := journalRows db;
           sentenceRows := sentenceRows db ++ [doc];
           nextId := N.succ (nextId db) |}
        (saved ++ [(s, sentenceId)])
  end.

(** The handler of [saveJournalData]: the database it leaves and the
    returned [{ journalId, sentences }]. *)
Definition saveJournalData (clock : nat -> Z) (userId content : string)
  (analysis : Analysis) (db : Db)
  : Db * (N * list (GeneratedSentence * N)) :=
  let journalId := nextId db in
  let journal :=
    {| JournalDoc._id := journalId;
       JournalDoc.userId := userId;
       JournalDoc.title := title analysis;
       JournalDoc.content := content;
       JournalDoc.createdAt := clock 0%nat;
       JournalDoc.processed := true |} in
  let r :=
    insertSentences clock 1 userId journalId (sentences analysis)
      {| journalRows := journalRows db ++ [journal];
         sentenceRows := sentenceRows db;
         nextId := N.succ (nextId db) |}
      [] in
  (fst r, (journalId, snd r)).

(** The documents the mutation adds to [sentences]: what the table holds
    beyond its rows before. *)
Definition added (before after : Db) : list SentenceDoc.t :=
  skipn (List.length (sentenceRows before)) (sentenceRows after).

End Journal.

(* ====================================================================== *)
(** ** The practice session: [SentencePracticeScreen] *)
(* ====================================================================== *)

Module Practice.

(** A sentence as the screen holds it in its queue, with the fields the
    handlers read and write. *)
Record Card : Type := mkCard {
  _id : string;
  original : string;
  audioUrl : option string
}.

Record SessionStats : Type := mkStats {
  reviewed : Z;
  correct : Z
}.

(** The result of the [sentences] query ([None] while it is [undefined])
    and the [useState] cells; [isPlaying] and [isGeneratingAudio] concern
    playback only and are left out. *)
Record Screen : Type := mkScreen {
  sentences : option (list Card);
  queue : list Card;
  currentIndex : nat;
  isFlipped : bool;
  sessionStats : SessionStats
}.

Record World : Type := mkWorld {
  screen : Screen;
  db : Store.Db
}.

Definition USER_ID : string := "users:123".

Definition initialScreen : Screen :=
  {| sentences := None;
     queue := [];
     currentIndex := 0;
     isFlipped := false;
     sessionStats := {| reviewed := 0; correct := 0 |} |}.

(** The effect that initialises the queue, run when [sentences] changes;
    [shuffle] is what [[...sentences].sort(() => Math.random() - 0.5)] makes
    of the list this time. *)
Definition initQueue (shuffle : list Card -> list Card) (s : Screen) : Screen :=
  match sentences s, queue s with
  | Some l, [] =>
      {| sentences := sentences s;
         queue := shuffle l;
         currentIndex := currentIndex s;
         isFlipped := isFlipped s;
         sessionStats := sessionStats s |}
  | _, _ => s
  end.

Definition setSentences (r : option (list Card)) (s : Screen) : Screen :=
  {| sentences := r;
     queue := queue s;
     currentIndex := currentIndex s;
     isFlipped := isFlipped s;
     sessionStats := sessionStats s |}.

(** [queue[currentIndex]] *)
Definition currentCard (s : Screen) : option Card :=
  nth_error (queue s) (currentIndex s).

(** [isFinished] *)
Definition isFinished (s : Screen) : bool :=
  (0 <? List.length (queue s))%nat
  && (List.length (queue s) <=? currentIndex s)%nat.

(** [handleFlip] *)
Definition handleFlip (s : Screen) : Screen :=
  {| sentences := sentences s;
     queue := queue s;
     currentIndex := currentIndex s;
     isFlipped := true;
     sessionStats := sessionStats s |}.

(** The object [handleGrade] passes to the mutation. *)
Definition gradeArgs (clientNow : Z) (g : Z) (card : Card) : Store.Args.t :=
  {| Store.Args.userId := USER_ID;
     Store.Args.itemId := _id card;
     Store.Args.itemType := sentence;
     Store.Args.nextReview := clientNow + 86400000;
     Store.Args.interval := 1;
     Store.Args.easeFactor := 2.5;
     Store.Args.status := if g <? 3 then Learning else Review |}.

(** Steps 2 and 3 of [handleGrade]. *)
Definition recordGrade (g : Z) (s : Screen) : Screen :=
  let prev := sessionStats s in
  {| sentences := sentences s;
     queue := queue s;
     currentIndex := S (currentIndex s);
     isFlipped := false;
     sessionStats :=
       {| reviewed := reviewed prev + 1;
          correct := if 3 <=? g then correct prev + 1 else correct prev |} |}.

(** [handleGrade]: it returns at once without a current card, and a rejected
    mutation ends it before the statistics and the index are touched. *)
Definition handleGrade (clientNow : Z) (net : ReviewScreen.Network) (g : Z)
  (w : World) : World * Completion unit :=
  match currentCard (screen w) with
  | None => (w, Returned tt)
  | Some card =>
      match ReviewScreen.saveToSRS net (gradeArgs clientNow g card) (db w) with
      | (d', Thrown err) => ({| screen := screen w; db := d' |}, Thrown err)
      | (d', Returned _) =>
          ({| screen := recordGrade g (screen w); db := d' |}, Returned tt)
      end
  end.

(** [updatedQueue[currentIndex] = { ...currentCard, audioUrl: result.url }] *)
Fixpoint setAudioAt (i : nat) (url : string) (q : list Card) : list Card :=
  match q, i with
  | [], _ => []
  | c :: q', O =>
      {| _id := _id c; original := original c; audioUrl := Some url |} :: q'
  | c :: q', S i' => c :: setAudioAt i' url q'
  end.

(** What [handlePlayAudio] does to the screen when it generated audio at
    address [url]: nothing without a current card or when the card has an
    address already, else the card in the queue gets the address. *)
Definition audioGenerated (url : string) (s : Screen) : Screen :=
  match currentCard s with
  | None => s
  | Some card =>
      match Audio.existing (audioUrl card) with
      | Some _ => s
      | None =>
          {| sentences := sentences s;
             queue := setAudioAt (currentIndex s) url (queue s);
             currentIndex := currentIndex s;
             isFlipped := isFlipped s;
             sessionStats := sessionStats s |}
      end
  end.

(** Which of the four [return]s of the component renders. *)
Inductive View : Type := LoadingView | EmptyView | FinishedView | CardView.

Definition view (s : Screen) : View :=
  match sentences s with
  | None => LoadingView
  | Some _ =>
      match queue s with
      | [] => EmptyView
      | _ :: _ => if isFinished s then FinishedView else CardView
      end
  end.

(** [REVIEW_OPTIONS] are the four buttons of [ReviewScreen.GradeButton]
    with the same grades.  What can happen to the mounted screen: a query
    result arrives and the effect runs, the learner presses a control, audio
    generation ends, or the page is reloaded from the final view. *)
Inductive Event : Type :=
| SentencesUpdate (result : option (list Card))
                  (shuffle : list Card -> list Card)
| ClickShowAnswer
| ClickGrade (b : ReviewScreen.GradeButton) (clientNow : Z)
             (net : ReviewScreen.Network)
| AudioGenerated (url : string)
| ClickReviewAgain.

Definition onScreen (f : Screen -> Screen) (w : World) : World :=
  {| screen := f (screen w); db := db w |}.

Definition step (w : World) (e : Event) : World :=
  match e, view (screen w) with
  | SentencesUpdate r shuffle, _ =>
      onScreen (fun s => initQueue shuffle (setSentences r s)) w
  | ClickShowAnswer, CardView => onScreen handleFlip w
  | ClickGrade b clientNow net, CardView =>
      if isFlipped (screen w)
      then fst (handleGrade clientNow net (ReviewScreen.gradeOf b) w)
      else w
  | AudioGenerated url, CardView => onScreen (audioGenerated url) w
  | ClickReviewAgain, FinishedView => onScreen (fun _ => initialScreen) w
  | _, _ => w
  end.

Definition run (w : World) (es : list Event) : World :=
  fold_left step es w.

Definition isReload (e : Event) : bool :=
  match e with
  | ClickReviewAgain => true
  | _ => false
  end.

(** The statistics against the progress: as many cards are counted as
    reviewed as the index has moved, the index does not pass the end of the
    queue, and no more cards are counted correct than reviewed. *)
Definition progressConsistent (s : Screen) : Prop :=
  reviewed (sessionStats s) = Z.of_nat (currentIndex s) /\
  (currentIndex s <= List.length (queue s))%nat /\
  0 <= correct (sessionStats s) <= reviewed (sessionStats s).

End Practice.

(* ====================================================================== *)
(** ** More sample data *)
(* ====================================================================== *)

Module MoreSamples.

(** Arguments for another item than [Samples.demoArgs]. *)
Definition otherArgs : Store.Args.t :=
  {| Store.Args.userId := "users:123";
     Store.Args.itemId := "sentences:9";
     Store.Args.itemType := sentence;
     Store.Args.nextReview := 500;
     Store.Args.interval := 1;
     Store.Args.easeFactor := 2.5;
     Store.Args.status := Learning |}.

(** A speech service that fails once and then answers. *)
Definition flakyApi (k : nat) : Completion string :=
  match k with
  | O => Thrown "503"
  | _ => Returned "https://audio.example/7.mp3"%string
  end.

(** A speech service that is down. *)
Definition deadApi (k : nat) : Completion string := Thrown "503".

Definition oneSentence : list Audio.SentenceDoc :=
  [ Audio.mkDoc "sentences:7" "ni hao" None ].

(** A practice screen whose queue holds two cards. *)
Definition practiceCards : list Practice.Card :=
  [ Practice.mkCard "sentences:7" "ni hao" None;
    Practice.mkCard "sentences:9" "zai jian" None ].

Definition practiceWorld : Practice.World :=
  Practice.run
    (Practice.mkWorld Practice.initialScreen StoreInv.initialDb)
    [ Practice.SentencesUpdate (Some practiceCards) (fun l => l) ].

(** A later query result with one more sentence, offered in reverse order,
    then a press, a grade and generated audio. *)
Definition practiceEvents : list Practice.Event :=
  [ Practice.SentencesUpdate
      (Some (Practice.mkCard "sentences:11" "wan an" None :: practiceCards))
      (fun l => rev l);
    Practice.ClickShowAnswer;
    Practice.ClickGrade ReviewScreen.Easy 5000
      (ReviewScreen.Online 5001 Samples.standIn);
    Practice.AudioGenerated "https://audio.example/9.mp3" ].

End MoreSamples.

(* ====================================================================== *)
(** * Properties *)
(* ====================================================================== *)

(** ** Doubles *)

(** Comparing in the other direction gives the opposite answer. *)
Lemma SFcompare_antisym (x y : Float64.float) :
  SFcompare y x = option_map CompOpp (SFcompare x y).
Proof.
  destruct x as [sx|sx| |sx mx ex], y as [sy|sy| |sy my ey];
    try destruct sx; try destruct sy; try reflexivity;
    cbn [SFcompare option_map];
    rewrite (Z.compare_antisym ex ey);
    destruct (ex ?= ey); cbn [CompOpp]; try reflexivity;
    rewrite (Pos.compare_cont_antisym mx my Eq); cbn [CompOpp];
    destruct (Pos.compare_cont Eq mx my); reflexivity.
Qed.

(** [a <= b] excludes [b < a]. *)
Lemma leb_not_ltb (a b : Float64.float) :
  Float64.leb a b = true -> Float64.ltb b a = false.
Proof.
  unfold Float64.leb, Float64.ltb, SFleb, SFltb.
  rewrite (SFcompare_antisym a b).
  destruct (SFcompare a b) as [[| |]|]; cbn; congruence.
Qed.

(** [a < b] excludes [b === a]. *)
Lemma ltb_not_eqb (a b : Float64.float) :
  Float64.ltb a b = true -> Float64.eqb b a = false.
Proof.
  unfold Float64.eqb, Float64.ltb, SFeqb, SFltb.
  rewrite (SFcompare_antisym a b).
  destruct (SFcompare a b) as [[| |]|]; cbn; congruence.
Qed.

(** A number that is [===] to a double other than zero is that double. *)
Lemma eqb_finite (x : Float64.float) (s : bool) (m : positive) (e : Z) :
  Float64.eqb x (S754_finite s m e) = true -> x = S754_finite s m e.
Proof.
  unfold Float64.eqb, SFeqb.
  destruct x as [sx|sx| |sx mx ex]; cbn [SFcompare];
    try (destruct sx; discriminate); try (destruct s; discriminate);
    try discriminate.
  destruct sx, s; try discriminate;
    destruct (Z.compare_spec ex e) as [E|E|E]; try discriminate;
    destruct (Pos.compare_cont Eq mx m) eqn:C; try discriminate;
    intros _; apply Pos.compare_eq in C; now subst.
Qed.

(** A number that is [===] to 0 is one of the two zeros. *)
Lemma eqb_zero (x : Float64.float) :
  Float64.eqb x (Float64.ofZ 0) = true -> exists s, x = S754_zero s.
Proof.
  unfold Float64.eqb, SFeqb.
  destruct x as [sx|sx| |sx mx ex]; cbn;
    try (destruct sx; discriminate); try discriminate.
  intros _. now exists sx.
Qed.

Lemma eqb_one_not_zero (x : Float64.float) :
  Float64.eqb x (Float64.ofZ 1) = true -> Float64.eqb x (Float64.ofZ 0) = false.
Proof.
  intro H. change (Float64.ofZ 1) with (S754_finite false 4503599627370496 (-52)) in H.
  apply eqb_finite in H. subst x. reflexivity.
Qed.

Lemma above_one (x : Float64.float) :
  Float64.ltb (Float64.ofZ 1) x = true ->
  Float64.eqb x (Float64.ofZ 0) = false /\ Float64.eqb x (Float64.ofZ 1) = false.
Proof.
  intro H. split.
  - destruct (Float64.eqb x (Float64.ofZ 0)) eqn:E; [|reflexivity].
    apply eqb_zero in E. destruct E as [s ->]. destruct s; discriminate H.
  - now apply ltb_not_eqb.
Qed.

(** ** The scheduler in double precision *)

(** C1, as stated, fails.  A card at interval 10 with ease factor 1.54 is
    graded 3.  The new ease factor is [1.54 - 0.14], which in doubles is
    1.4000000000000001; ten times that is above 14, so the new interval is
    15.  The returned ease factor is that value rounded to two decimals, 1.4,
    and the ceiling of ten times the returned ease factor is 14.  Likewise a
    card at interval 200 with ease factor 1.305, graded 4: the interval is
    261, the returned ease factor 1.3, and the ceiling of 200 times 1.3 is
    260. *)
Lemma calculateSRS_interval_not_from_returned_easeFactor :
  Float64.leb (Float64.ofZ 3) (SrsAlgorithm.grade Samples.hardRecall) = true /\
  Float64.leb SrsAlgorithm.MIN_EASE_FACTOR
    (SrsAlgorithm.previousEaseFactor Samples.hardRecall) = true /\
  Float64.ltb (Float64.ofZ 1)
    (SrsAlgorithm.previousInterval Samples.hardRecall) = true /\
  SrsAlgorithm.interval Samples.hardRecallOut = Float64.ofZ 15 /\
  SrsAlgorithm.easeFactor Samples.hardRecallOut = Float64.decimal 14 1 /\
  Float64.ceil
    (Float64.mul (SrsAlgorithm.previousInterval Samples.hardRecall)
       (SrsAlgorithm.easeFactor Samples.hardRecallOut))
  = Float64.ofZ 14 /\
  Float64.eqb (SrsAlgorithm.interval Samples.hardRecallOut)
    (Float64.ceil
       (Float64.mul (SrsAlgorithm.previousInterval Samples.hardRecall)
          (SrsAlgorithm.easeFactor Samples.hardRecallOut)))
  = false /\
  SrsAlgorithm.interval Samples.offGridOut = Float64.ofZ 261 /\
  SrsAlgorithm.easeFactor Samples.offGridOut = Float64.decimal 13 1 /\
  Float64.ceil
    (Float64.mul (SrsAlgorithm.previousInterval Samples.offGrid)
       (SrsAlgorithm.easeFactor Samples.offGridOut))
  = Float64.ofZ 260.
Proof.
  repeat split; vm_compute; reflexivity.
Qed.

(** After a successful grade the interval is decided by the previous
    interval alone. *)
Lemma newInterval_success (grade ef prev : Float64.float) :
  Float64.leb (Float64.ofZ 3) grade = true ->
  SrsAlgorithm.newInterval grade ef prev
  = if Float64.eqb prev (Float64.ofZ 0) then Float64.ofZ 1
    else if Float64.eqb prev (Float64.ofZ 1) then Float64.ofZ 6
    else Float64.ceil (Float64.mul prev (SrsAlgorithm.newEaseFactor grade ef)).
Proof.
  intro H. unfold SrsAlgorithm.newInterval.
  now rewrite (leb_not_ltb _ _ H).
Qed.

(** C1, amended.  After a successful grade (3 or more) the new interval is 1
    when the previous interval is 0, 6 when it is 1, and for every other
    previous interval, so for every one above 1, [Math.ceil] of the previous
    interval times the new ease factor as it is before rounding: the floored
    value [e] of step 1, multiplied in double precision.  The returned ease
    factor is [e] rounded to two decimals, so the interval is the ceiling of
    the previous interval times the returned ease factor where that rounding
    changes nothing.  From interval 6 and ease factor 2.5, grade 3 gives
    interval 15, ease factor 2.36 and status review, due 15 days later. *)
Theorem calculateSRS_success_interval :
  (forall now grade ef prev : Float64.float,
      Float64.leb (Float64.ofZ 3) grade = true ->
      let out :=
        SrsAlgorithm.calculateSRS now (SrsAlgorithm.mkInput grade ef prev) in
      let e := SrsAlgorithm.newEaseFactor grade ef in
      (Float64.eqb prev (Float64.ofZ 0) = true ->
       SrsAlgorithm.interval out = Float64.ofZ 1) /\
      (Float64.eqb prev (Float64.ofZ 1) = true ->
       SrsAlgorithm.interval out = Float64.ofZ 6) /\
      (Float64.ltb (Float64.ofZ 1) prev = true ->
       SrsAlgorithm.interval out = Float64.ceil (Float64.mul prev e)) /\
      (Float64.eqb prev (Float64.ofZ 0) = false ->
       Float64.eqb prev (Float64.ofZ 1) = false ->
       SrsAlgorithm.interval out = Float64.ceil (Float64.mul prev e)) /\
      SrsAlgorithm.easeFactor out = Float64.toFixed2 e /\
      (Float64.ltb (Float64.ofZ 1) prev = true ->
       Float64.toFixed2 e = e ->
       SrsAlgorithm.interval out
       = Float64.ceil (Float64.mul prev (SrsAlgorithm.easeFactor out))))
  /\
  (forall now : Float64.float,
      SrsAlgorithm.calculateSRS now Samples.scenario
      = {| SrsAlgorithm.interval := Float64.ofZ 15;
           SrsAlgorithm.nextReview :=
             Float64.add now
               (Float64.mul (Float64.ofZ 15) (Float64.ofZ 86400000));
           SrsAlgorithm.easeFactor := Float64.decimal 236 2;
           SrsAlgorithm.status := Review |}).
Proof.
  split.
  - intros now grade ef prev Hg out e. subst out e.
    cbn [SrsAlgorithm.calculateSRS SrsAlgorithm.interval
         SrsAlgorithm.easeFactor SrsAlgorithm.grade
         SrsAlgorithm.previousEaseFactor SrsAlgorithm.previousInterval].
    rewrite (newInterval_success _ ef prev Hg).
    assert (I : Float64.eqb prev (Float64.ofZ 0) = false ->
                Float64.eqb prev (Float64.ofZ 1) = false ->
                (if Float64.eqb prev (Float64.ofZ 0) then Float64.ofZ 1
                 else if Float64.eqb prev (Float64.ofZ 1) then Float64.ofZ 6
                 else Float64.ceil
                        (Float64.mul prev
                           (SrsAlgorithm.newEaseFactor grade ef)))
                = Float64.ceil
                    (Float64.mul prev (SrsAlgorithm.newEaseFactor grade ef))).
    { intros E0 E1. now rewrite E0, E1. }
    split; [intro E0; now rewrite E0|].
    split; [intro E1; now rewrite (eqb_one_not_zero _ E1), E1|].
    split; [intro Hp; destruct (above_one _ Hp) as [E0 E1]; exact (I E0 E1)|].
    split; [exact I|].
    split; [reflexivity|].
    intros Hp R. destruct (above_one _ Hp) as [E0 E1].
    rewrite R. exact (I E0 E1).
  - intro now. unfold SrsAlgorithm.calculateSRS.
    replace (SrsAlgorithm.newInterval (SrsAlgorithm.grade Samples.scenario)
               (SrsAlgorithm.previousEaseFactor Samples.scenario)
               (SrsAlgorithm.previousInterval Samples.scenario))
      with (Float64.ofZ 15) by (vm_compute; reflexivity).
    f_equal; vm_compute; reflexivity.
Qed.

Lemma calculateSRS_success_interval_witness :
  Float64.leb (Float64.ofZ 3) (Float64.ofZ 3) = true /\
  Float64.ltb (Float64.ofZ 1) (Float64.ofZ 10) = true /\
  SrsAlgorithm.interval Samples.hardRecallOut
  = Float64.ceil
      (Float64.mul (Float64.ofZ 10)
         (SrsAlgorithm.newEaseFactor (Float64.ofZ 3) (Float64.decimal 154 2))).
Proof.
  assert (H3 : Float64.leb (Float64.ofZ 3) (Float64.ofZ 3) = true)
    by reflexivity.
  assert (H1 : Float64.ltb (Float64.ofZ 1) (Float64.ofZ 10) = true)
    by reflexivity.
  split; [exact H3|]. split; [exact H1|].
  exact (proj1 (proj2 (proj2
           (proj1 calculateSRS_success_interval (Float64.ofZ 5000)
              (Float64.ofZ 3) (Float64.decimal 154 2) (Float64.ofZ 10) H3)))
           H1).
Defined.

(** The statements made below about the exact reading, on failing grades,
    on the status and on the floor of the ease factor before it is rounded,
    hold of [calculateSRS] in doubles as well, for every number it can be
    given. *)
Lemma calculateSRS_failure_in_doubles
  (now grade ef prev : Float64.float) :
  Float64.ltb grade (Float64.ofZ 3) = true ->
  let out :=
    SrsAlgorithm.calculateSRS now (SrsAlgorithm.mkInput grade ef prev) in
  SrsAlgorithm.interval out = Float64.ofZ 1 /\
  SrsAlgorithm.status out = Learning.
Proof.
  intros H out. subst out.
  cbn [SrsAlgorithm.calculateSRS SrsAlgorithm.interval SrsAlgorithm.status
       SrsAlgorithm.grade SrsAlgorithm.previousEaseFactor
       SrsAlgorithm.previousInterval].
  unfold SrsAlgorithm.newInterval, SrsAlgorithm.newStatus.
  now rewrite H.
Qed.

Lemma calculateSRS_status_in_doubles
  (now grade ef prev : Float64.float) :
  let out :=
    SrsAlgorithm.calculateSRS now (SrsAlgorithm.mkInput grade ef prev) in
  (SrsAlgorithm.status out = Mastered <->
   Float64.ltb grade (Float64.ofZ 3) = false /\
   Float64.ltb (Float64.ofZ 180) (SrsAlgorithm.interval out) = true) /\
  (SrsAlgorithm.status out = Review <->
   Float64.ltb grade (Float64.ofZ 3) = false /\
   Float64.ltb (Float64.ofZ 180) (SrsAlgorithm.interval out) = false).
Proof.
  intro out. subst out.
  cbn [SrsAlgorithm.calculateSRS SrsAlgorithm.interval SrsAlgorithm.status
       SrsAlgorithm.grade SrsAlgorithm.previousEaseFactor
       SrsAlgorithm.previousInterval].
  unfold SrsAlgorithm.newStatus.
  destruct (Float64.ltb grade (Float64.ofZ 3));
    [split; split; intro H; try discriminate H; destruct H; discriminate|].
  destruct (Float64.ltb (Float64.ofZ 180) _);
    split; split; intro H; try discriminate H; try (split; reflexivity);
    try reflexivity; destruct H; discriminate.
Qed.

Lemma newEaseFactor_floor_in_doubles (grade ef : Float64.float) :
  SrsAlgorithm.newEaseFactor grade ef = S754_nan \/
  Float64.leb SrsAlgorithm.MIN_EASE_FACTOR
    (SrsAlgorithm.newEaseFactor grade ef) = true.
Proof.
  unfold SrsAlgorithm.newEaseFactor.
  set (e := Float64.add ef _). clearbody e.
  destruct (Float64.ltb e SrsAlgorithm.MIN_EASE_FACTOR) eqn:L;
    [right; reflexivity|].
  unfold Float64.ltb, Float64.leb, SFltb, SFleb in *.
  rewrite (SFcompare_antisym e SrsAlgorithm.MIN_EASE_FACTOR).
  destruct (SFcompare e SrsAlgorithm.MIN_EASE_FACTOR) as [[| |]|] eqn:C;
    try discriminate L; try (right; reflexivity).
  left. destruct e as [s|s| |s m x]; try reflexivity;
    try (destruct s; discriminate C).
Qed.

(** ** Rationals and rounding *)

Lemma Qltb_lt (x y : Q) : Qltb x y = true <-> (x < y)%Q.
Proof.
  unfold Qltb. rewrite negb_true_iff.
  split; intro H.
  - apply Qnot_le_lt. intro Hle. apply Qle_bool_iff in Hle. congruence.
  - destruct (Qle_bool y x) eqn:E; [|reflexivity].
    apply Qle_bool_iff in E. exfalso. exact (Qlt_not_le _ _ H E).
Qed.

Lemma Qltb_ge (x y : Q) : Qltb x y = false <-> (y <= x)%Q.
Proof.
  unfold Qltb. rewrite negb_false_iff. apply Qle_bool_iff.
Qed.

Lemma Qltb_comp (x x' y y' : Q) :
  (x == x')%Q -> (y == y')%Q -> Qltb x y = Qltb x' y'.
Proof.
  intros Hx Hy. unfold Qltb. now rewrite Hx, Hy.
Qed.

Lemma roundHundredths_comp (x y : Q) :
  (x == y)%Q -> Scheduler.roundHundredths x = Scheduler.roundHundredths y.
Proof.
  intro H. unfold Scheduler.roundHundredths. f_equal.
  apply Qfloor_comp. now rewrite H.
Qed.

Lemma toFixed2_comp (x y : Q) :
  (x == y)%Q -> Scheduler.toFixed2 x = Scheduler.toFixed2 y.
Proof.
  intro H. unfold Scheduler.toFixed2.
  rewrite (Qltb_comp x y 0 0 H (Qeq_refl 0)).
  assert (Hn : (- x == - y)%Q) by now rewrite H.
  now rewrite (roundHundredths_comp _ _ H), (roundHundredths_comp _ _ Hn).
Qed.

(** Rounding to hundredths leaves a whole number of hundredths alone. *)
Lemma roundHundredths_exact (n : Z) :
  Scheduler.roundHundredths (n # 100) = n # 100.
Proof.
  unfold Scheduler.roundHundredths. f_equal.
  unfold Qfloor, Qplus, Qmult. simpl.
  replace (n * 100 * 2 + 100) with (100 + n * 200) by lia.
  rewrite Z.div_add by lia. reflexivity.
Qed.

(** Rounding to hundredths does not go below a bound that is itself a whole
    number of hundredths. *)
Lemma roundHundredths_lower (n : Z) (x : Q) :
  (n # 100 <= x)%Q -> (n # 100 <= Scheduler.roundHundredths x)%Q.
Proof.
  intro H. unfold Scheduler.roundHundredths.
  assert (Hf : n <= Qfloor (x * 100 + (1 # 2))%Q).
  { rewrite <- (Qfloor_Z n). apply Qfloor_resp_le.
    unfold Qle in *. destruct x as [a b]. simpl in *.
    rewrite !Pos2Z.inj_mul. nia. }
  unfold Qle. cbn [Qnum Qden]. lia.
Qed.

(** ** The scheduler in exact arithmetic *)

Lemma newEaseFactor_floor (g : Z) (ef : Q) :
  (Scheduler.MIN_EASE_FACTOR <= Scheduler.newEaseFactor g ef)%Q.
Proof.
  unfold Scheduler.newEaseFactor.
  destruct (Qltb (Scheduler.rawEaseFactor g ef) Scheduler.MIN_EASE_FACTOR) eqn:E.
  - apply Qle_refl.
  - now apply Qltb_ge.
Qed.

Lemma toFixed2_floor (x : Q) :
  (1.3 <= x)%Q -> (1.3 <= Scheduler.toFixed2 x)%Q.
Proof.
  intro H. unfold Scheduler.toFixed2.
  assert (E : Qltb x 0 = false).
  { apply Qltb_ge. apply Qle_trans with (y := 1.3%Q); [discriminate | exact H]. }
  rewrite E.
  assert (H13 : (1.3 == 130 # 100)%Q) by reflexivity.
  rewrite H13 in *. now apply roundHundredths_lower.
Qed.

(** The returned ease factor is at least 1.3, whatever the input. *)
Lemma easeFactor_floor_any (now : Z) (i : Scheduler.SRSInput) :
  (1.3 <= Scheduler.easeFactor (Scheduler.calculateSRS now i))%Q.
Proof.
  cbn [Scheduler.calculateSRS Scheduler.easeFactor].
  apply toFixed2_floor. apply newEaseFactor_floor.
Qed.

(** Starting from a whole number of hundredths, the new ease factor is again
    one, and it is at least 130 of them. *)
Lemma newEaseFactor_hundredths (g : Z) (ef : Q) :
  Scheduler.hundredths ef ->
  exists m : Z, 130 <= m /\ (Scheduler.newEaseFactor g ef == m # 100)%Q.
Proof.
  intros [n Hn]. unfold Scheduler.newEaseFactor.
  assert (Hraw : (Scheduler.rawEaseFactor g ef
                  == (n + 10 - (5 - g) * (8 + (5 - g) * 2)) # 100)%Q).
  { unfold Scheduler.rawEaseFactor. rewrite Hn.
    rewrite (Qmake_Qdiv n 100),
            (Qmake_Qdiv (n + 10 - (5 - g) * (8 + (5 - g) * 2)) 100).
    unfold Z.sub.
    repeat (rewrite inject_Z_plus || rewrite inject_Z_mult
            || rewrite inject_Z_opp).
    field. }
  destruct (Qltb (Scheduler.rawEaseFactor g ef) Scheduler.MIN_EASE_FACTOR) eqn:E.
  - exists 130. split; [lia | reflexivity].
  - exists (n + 10 - (5 - g) * (8 + (5 - g) * 2)). split; [|exact Hraw].
    apply Qltb_ge in E. rewrite Hraw in E.
    unfold Scheduler.MIN_EASE_FACTOR, Qle in E. cbn [Qnum Qden] in E. lia.
Qed.

(** On such a value the final rounding changes nothing. *)
Lemma toFixed2_newEaseFactor (g : Z) (ef : Q) :
  Scheduler.hundredths ef ->
  (Scheduler.toFixed2 (Scheduler.newEaseFactor g ef)
   == Scheduler.newEaseFactor g ef)%Q.
Proof.
  intro H. destruct (newEaseFactor_hundredths g ef H) as [m [Hm E]].
  rewrite (toFixed2_comp _ _ E), E.
  unfold Scheduler.toFixed2.
  assert (F : Qltb (m # 100) 0 = false).
  { apply Qltb_ge. unfold Qle. cbn [Qnum Qden]. lia. }
  rewrite F, roundHundredths_exact. reflexivity.
Qed.

(** C2.  After a failing grade (below 3) the new interval is 1 and the status
    is learning, whatever the previous interval and ease factor. *)
Theorem calculateSRS_failure_resets :
  forall (now g : Z) (ef : Q) (prev : Z),
    g < 3 ->
    let out := Scheduler.calculateSRS now (Scheduler.mkInput g ef prev) in
    Scheduler.interval out = 1 /\ Scheduler.status out = Learning.
Proof.
  intros now g ef prev Hg out. subst out.
  assert (G : (g <? 3) = true) by (apply Z.ltb_lt; lia).
  cbn [Scheduler.calculateSRS Scheduler.interval Scheduler.status
       Scheduler.grade Scheduler.previousEaseFactor Scheduler.previousInterval].
  unfold Scheduler.newInterval, Scheduler.newStatus. rewrite G. auto.
Qed.

Lemma calculateSRS_failure_resets_witness :
  1 < 3 /\
  Scheduler.interval (Scheduler.calculateSRS 0 (Scheduler.mkInput 1 2.5 100)) = 1 /\
  Scheduler.status (Scheduler.calculateSRS 0 (Scheduler.mkInput 1 2.5 100))
  = Learning.
Proof.
  assert (H : 1 < 3) by lia.
  split; [exact H|].
  exact (calculateSRS_failure_resets 0 1 2.5%Q 100 H).
Defined.

(** C3.  For a grade from 0 to 5 and a prior state with ease factor at least
    1.3 and interval at least 0, the returned ease factor is the previous one
    plus [0.1 - (5 - grade) * (0.08 + (5 - grade) * 0.02)], raised to 1.3 when
    below it, then rounded to two decimals, and it is at least 1.3. *)
Theorem calculateSRS_easeFactor_floor :
  forall (now g : Z) (ef : Q) (prev : Z),
    0 <= g <= 5 -> (1.3 <= ef)%Q -> 0 <= prev ->
    let out := Scheduler.calculateSRS now (Scheduler.mkInput g ef prev) in
    let raw := (ef + (0.1 - (5 - inject_Z g) * (0.08 + (5 - inject_Z g) * 0.02)))%Q in
    Scheduler.easeFactor out
    = Scheduler.toFixed2 (if Qltb raw 1.3 then 1.3%Q else raw)
    /\ (1.3 <= Scheduler.easeFactor out)%Q.
Proof.
  intros now g ef prev _ _ _ out raw. split.
  - reflexivity.
  - apply easeFactor_floor_any.
Qed.

Lemma calculateSRS_easeFactor_floor_witness :
  0 <= 0 <= 5 /\ (1.3 <= 1.3)%Q /\ 0 <= 7 /\
  (1.3 <= Scheduler.easeFactor
            (Scheduler.calculateSRS 0 (Scheduler.mkInput 0 1.3 7)))%Q.
Proof.
  assert (Hg : 0 <= 0 <= 5) by lia.
  assert (He : (1.3 <= 1.3)%Q) by apply Qle_refl.
  assert (Hp : 0 <= 7) by lia.
  split; [exact Hg | split; [exact He | split; [exact Hp |]]].
  exact (proj2 (calculateSRS_easeFactor_floor 0 0 1.3%Q 7 Hg He Hp)).
Defined.

(** C4.  The returned status is mastered exactly when the grade is 3 or more
    and the new interval exceeds 180; with a grade of 3 or more and a new
    interval of at most 180 it is review.  This holds for every input, in
    particular for grades from 0 to 5 and valid prior states. *)
Theorem calculateSRS_status_mastered_iff :
  forall (now : Z) (i : Scheduler.SRSInput),
    let out := Scheduler.calculateSRS now i in
    (Scheduler.status out = Mastered
     <-> 3 <= Scheduler.grade i /\ 180 < Scheduler.interval out)
    /\ (3 <= Scheduler.grade i -> Scheduler.interval out <= 180 ->
        Scheduler.status out = Review).
Proof.
  intros now i out. subst out.
  cbn [Scheduler.calculateSRS Scheduler.status Scheduler.interval].
  unfold Scheduler.newStatus.
  set (ivl := Scheduler.newInterval _ _ _).
  destruct (Scheduler.grade i <? 3) eqn:G.
  - apply Z.ltb_lt in G. repeat split; try discriminate; intros; lia.
  - apply Z.ltb_ge in G.
    destruct (180 <? ivl) eqn:I.
    + apply Z.ltb_lt in I. repeat split; try lia; intros; lia.
    + apply Z.ltb_ge in I. repeat split; try discriminate; intros; lia.
Qed.

Lemma calculateSRS_status_mastered_iff_witness :
  3 <= 4 /\
  Scheduler.interval (Scheduler.calculateSRS 0 (Scheduler.mkInput 4 2.5 30)) <= 180 /\
  Scheduler.status (Scheduler.calculateSRS 0 (Scheduler.mkInput 4 2.5 30)) = Review.
Proof.
  assert (Hg : 3 <= 4) by lia.
  assert (Hi : Scheduler.interval
                 (Scheduler.calculateSRS 0 (Scheduler.mkInput 4 2.5 30)) <= 180)
    by (vm_compute; discriminate).
  split; [exact Hg | split; [exact Hi |]].
  exact (proj2 (calculateSRS_status_mastered_iff 0 (Scheduler.mkInput 4 2.5 30))
               Hg Hi).
Defined.

(** C5, as stated, fails: grade 7 is outside 0..5, and a previous interval
    of -3 is negative, yet in both cases [calculateSRS] returns a scheduling
    result instead of rejecting the input. *)
Lemma calculateSRS_accepts_invalid_input :
  (~ Scheduler.validInput (Scheduler.mkInput 7 2.5 6) /\
   ~ Scheduler.rejected (Scheduler.calculateSRS_call 0 (Scheduler.mkInput 7 2.5 6)) /\
   Scheduler.calculateSRS_call 0 (Scheduler.mkInput 7 2.5 6)
   = Returned (Scheduler.mkOutput 17 (17 * 86400000) 2.68 Review))
  /\
  (~ Scheduler.validInput (Scheduler.mkInput 4 2.5 (-3)) /\
   ~ Scheduler.rejected (Scheduler.calculateSRS_call 0 (Scheduler.mkInput 4 2.5 (-3))) /\
   Scheduler.calculateSRS_call 0 (Scheduler.mkInput 4 2.5 (-3))
   = Returned (Scheduler.mkOutput (-7) (-7 * 86400000) 2.50 Review)).
Proof.
  split; (split; [|split]).
  - unfold Scheduler.validInput. cbn. lia.
  - intros [msg H]. discriminate H.
  - reflexivity.
  - unfold Scheduler.validInput. cbn. lia.
  - intros [msg H]. discriminate H.
  - reflexivity.
Qed.

(** C5, amended.  [calculateSRS] validates nothing: for every input, valid
    or not, the call returns a scheduling result and never ends with an
    error.  The grade enters the formulas as given, without clamping: a grade
    below 0 is scheduled as a failure (interval 1, learning), a grade above 5
    as a success (review or mastered, never learning), and the returned ease
    factor is computed from the grade itself. *)
Theorem calculateSRS_never_rejects :
  forall (now : Z) (i : Scheduler.SRSInput),
    let out := Scheduler.calculateSRS now i in
    Scheduler.calculateSRS_call now i = Returned out /\
    ~ Scheduler.rejected (Scheduler.calculateSRS_call now i) /\
    (Scheduler.grade i < 0 ->
     Scheduler.interval out = 1 /\ Scheduler.status out = Learning) /\
    (5 < Scheduler.grade i ->
     Scheduler.status out <> Learning /\
     Scheduler.easeFactor out
     = Scheduler.toFixed2
         (Scheduler.newEaseFactor (Scheduler.grade i)
                                  (Scheduler.previousEaseFactor i))).
Proof.
  intros now i out. subst out. split; [reflexivity|]. split.
  - intros [msg H]. discriminate H.
  - cbn [Scheduler.calculateSRS Scheduler.interval Scheduler.status
         Scheduler.easeFactor].
    unfold Scheduler.newInterval, Scheduler.newStatus.
    split.
    + intro Hg.
      assert (G : (Scheduler.grade i <? 3) = true) by (apply Z.ltb_lt; lia).
      rewrite G. auto.
    + intro Hg.
      assert (G : (Scheduler.grade i <? 3) = false) by (apply Z.ltb_ge; lia).
      rewrite G. split; [|reflexivity].
      destruct (180 <? _); discriminate.
Qed.

Lemma calculateSRS_never_rejects_witness :
  5 < 7 /\
  Scheduler.status (Scheduler.calculateSRS 0 (Scheduler.mkInput 7 2.5 6))
  <> Learning.
Proof.
  assert (H : 5 < 7) by lia.
  split; [exact H|].
  exact (proj1 (proj2 (proj2 (proj2
           (calculateSRS_never_rejects 0 (Scheduler.mkInput 7 2.5 6)))) H)).
Defined.

(** ** The review store *)

Section FindFilter.

Variable A : Type.
Variables p q : A -> bool.

Lemma find_filter (l : list A) :
  find p (filter q l) = find (fun x => q x && p x) l.
Proof.
  induction l as [|x l IH]; [reflexivity|].
  cbn [filter find]. destruct (q x); cbn [andb find].
  - destruct (p x); [reflexivity | exact IH].
  - exact IH.
Qed.

Lemma find_none_filter (l : list A) :
  find p l = None <-> filter p l = [].
Proof.
  induction l as [|x l IH]; [tauto|].
  cbn [filter find]. destruct (p x); [|exact IH].
  split; discriminate.
Qed.

Lemma find_app_none (l : list A) (x : A) :
  find p l = None -> p x = true -> find p (l ++ [x]) = Some x.
Proof.
  induction l as [|y l IH]; cbn [app find]; intros Hn Hx.
  - now rewrite Hx.
  - destruct (p y); [discriminate | now apply IH].
Qed.

Variable f : A -> A.
Hypothesis f_keeps_p : forall x, p (f x) = p x.

Lemma find_map_same (l : list A) :
  find p (map f l) = option_map f (find p l).
Proof.
  induction l as [|x l IH]; [reflexivity|].
  cbn [map find]. rewrite f_keeps_p. destruct (p x); [reflexivity | exact IH].
Qed.

Lemma filter_map_same (l : list A) :
  filter p (map f l) = map f (filter p l).
Proof.
  induction l as [|x l IH]; [reflexivity|].
  cbn [map filter]. rewrite f_keeps_p. destruct (p x); cbn [map]; now rewrite IH.
Qed.

End FindFilter.

(** [saveItem] looks a record up by the composite key. *)
Lemma existingCard_hasKey (db : Store.Db) (args : Store.Args.t) :
  Store.existingCard db args
  = find (Store.hasKey args) (Store.user_review_deck db).
Proof.
  unfold Store.existingCard, Store.by_user. apply find_filter.
Qed.

Lemma existingCard_none (db : Store.Db) (args : Store.Args.t) :
  Store.existingCard db args = None <-> Store.recordsFor args db = [].
Proof.
  rewrite existingCard_hasKey. apply find_none_filter.
Qed.

Lemma hasKey_sameKey (a b : Store.Args.t) (c : Store.Card) :
  Store.sameKey a b -> Store.hasKey b c = Store.hasKey a c.
Proof.
  intros [Hu [Ht Hi]]. unfold Store.hasKey. now rewrite Hu, Ht, Hi.
Qed.

Lemma hasKey_newCardData (i : N) (now : Z) (args : Store.Args.t) :
  Store.hasKey args (Store.newCardData i now args) = true.
Proof.
  unfold Store.hasKey, Store.fieldIs, Store.newCardData.
  cbn [Store.userId]. rewrite String.eqb_refl. cbn [andb].
  destruct (Store.Args.itemType args); cbn; apply String.eqb_refl.
Qed.

(** Patching rewrites none of the fields the key is read from. *)
Lemma hasKey_patched (a : Store.Args.t) (i : N) (now : Z) (args : Store.Args.t)
  (c : Store.Card) :
  Store.hasKey a (if N.eqb (Store._id c) i then Store.patchFields now args c else c)
  = Store.hasKey a c.
Proof.
  destruct (N.eqb (Store._id c) i); [|reflexivity].
  unfold Store.hasKey, Store.fieldIs, Store.field.
  destruct (Store.idFieldOf (Store.Args.itemType a)); reflexivity.
Qed.

Lemma patch_ids (i : N) (now : Z) (args : Store.Args.t) (rows : list Store.Card) :
  map Store._id (Store.patch i (Store.patchFields now args) rows)
  = map Store._id rows.
Proof.
  unfold Store.patch. rewrite map_map. apply map_ext.
  intro c. destruct (N.eqb (Store._id c) i); reflexivity.
Qed.

Lemma patch_other (i : N) (upd : Store.Card -> Store.Card)
  (rows : list Store.Card) (k : nat) (c : Store.Card) :
  nth_error rows k = Some c -> Store._id c <> i ->
  nth_error (Store.patch i upd rows) k = Some c.
Proof.
  intros Hk Hne. unfold Store.patch.
  rewrite nth_error_map, Hk. cbn [option_map].
  apply N.eqb_neq in Hne. now rewrite Hne.
Qed.

(** What one call does when no record has the key. *)
Lemma saveItem_created (now : Z) (args : Store.Args.t) (db : Store.Db) :
  Store.recordsFor args db = [] ->
  Store.saveItem now args db
  = ({| Store.user_review_deck :=
          Store.user_review_deck db
          ++ [Store.newCardData (Store.nextId db) now args];
        Store.nextId := N.succ (Store.nextId db) |},
     {| Store.action := Store.created; Store.id := Store.nextId db |}).
Proof.
  intro H. apply existingCard_none in H.
  unfold Store.saveItem. now rewrite H.
Qed.

(** What one call does when a record has the key. *)
Lemma saveItem_updated (now : Z) (args : Store.Args.t) (db : Store.Db)
  (c : Store.Card) :
  Store.existingCard db args = Some c ->
  Store.saveItem now args db
  = ({| Store.user_review_deck :=
          Store.patch (Store._id c) (Store.patchFields now args)
                      (Store.user_review_deck db);
        Store.nextId := Store.nextId db |},
     {| Store.action := Store.updated; Store.id := Store._id c |}).
Proof.
  intro H. unfold Store.saveItem. now rewrite H.
Qed.

(** After any call, the record found for the key is the one the call
    reported, and it carries the state that was passed in. *)
Lemma saveItem_then_found (now : Z) (args : Store.Args.t) (db : Store.Db) :
  exists c,
    Store.existingCard (fst (Store.saveItem now args db)) args = Some c /\
    Store._id c = Store.id (snd (Store.saveItem now args db)) /\
    Store.nextReview c = Store.Args.nextReview args /\
    Store.interval c = Store.Args.interval args /\
    Store.easeFactor c = Store.Args.easeFactor args /\
    Store.status c = Store.Args.status args /\
    Store.lastReview c = Some now.
Proof.
  destruct (Store.existingCard db args) as [c|] eqn:E.
  - rewrite (saveItem_updated _ _ _ _ E). cbn [fst snd].
    exists (Store.patchFields now args c).
    rewrite existingCard_hasKey in *. cbn [Store.user_review_deck].
    unfold Store.patch.
    rewrite (find_map_same _ _ _ (fun x => hasKey_patched args _ now args x)).
    rewrite E. cbn [option_map]. rewrite N.eqb_refl.
    repeat split.
  - rewrite (saveItem_created _ _ _ (proj1 (existingCard_none _ _) E)).
    cbn [fst snd].
    exists (Store.newCardData (Store.nextId db) now args).
    rewrite existingCard_hasKey in *. cbn [Store.user_review_deck].
    rewrite (find_app_none _ _ _ _ E (hasKey_newCardData _ _ _)).
    repeat split.
Qed.

(** On a record that carries exactly the identifier field of its type, the
    lookup of [saveItem] is the lookup by user, item type and item
    identifier. *)
Lemma hasKey_typed (args : Store.Args.t) (c : Store.Card) :
  Store.typed c ->
  (Store.hasKey args c = true <->
   Store.userId c = Store.Args.userId args /\
   Store.type c = Store.Args.itemType args /\
   Store.field (Store.idFieldOf (Store.type c)) c = Some (Store.Args.itemId args)).
Proof.
  unfold Store.typed, Store.hasKey, Store.fieldIs. intro T.
  rewrite andb_true_iff, String.eqb_eq.
  destruct (Store.type c) eqn:Ty, (Store.Args.itemType args) eqn:Ta;
    cbn [Store.idFieldOf Store.field];
    destruct T as [T1 [T2 T3]];
    rewrite ?T1, ?T2, ?T3;
    try (split; [intros [_ H]; discriminate H
                | intros [_ [H _]]; discriminate H]).
  - destruct (Store.sentenceId c) as [x|]; [|contradiction].
    rewrite String.eqb_eq. split.
    + intros [Hu ->]. auto.
    + intros [Hu [_ H]]. injection H as ->. auto.
  - destruct (Store.grammarId c) as [x|]; [|contradiction].
    rewrite String.eqb_eq. split.
    + intros [Hu ->]. auto.
    + intros [Hu [_ H]]. injection H as ->. auto.
  - destruct (Store.characterId c) as [x|]; [|contradiction].
    rewrite String.eqb_eq. split.
    + intros [Hu ->]. auto.
    + intros [Hu [_ H]]. injection H as ->. auto.
Qed.

(** [saveItem] keeps the table made of such records. *)
Lemma saveItem_typed (now : Z) (args : Store.Args.t) (db : Store.Db) :
  Forall Store.typed (Store.user_review_deck db) ->
  Forall Store.typed
    (Store.user_review_deck (fst (Store.saveItem now args db))).
Proof.
  intro H. unfold Store.saveItem.
  destruct (Store.existingCard db args) as [c|]; cbn [fst Store.user_review_deck].
  - unfold Store.patch. apply Forall_map.
    apply Forall_impl with (P := Store.typed); [|exact H].
    intros x Tx. destruct (N.eqb (Store._id x) (Store._id c)); exact Tx.
  - apply Forall_app. split; [exact H|].
    constructor; [|constructor].
    unfold Store.typed, Store.newCardData. cbn [Store.type].
    destruct (Store.Args.itemType args); cbn; repeat split; discriminate.
Qed.

Lemma find_pointwise (A : Type) (p q : A -> bool) (l : list A) :
  (forall x, p x = q x) -> find p l = find q l.
Proof.
  intro H. induction l as [|x l IH]; [reflexivity|].
  cbn [find]. rewrite H, IH. reflexivity.
Qed.

Lemma existingCard_sameKey (db : Store.Db) (a b : Store.Args.t) :
  Store.sameKey a b -> Store.existingCard db b = Store.existingCard db a.
Proof.
  intro H. rewrite !existingCard_hasKey.
  apply find_pointwise. intro c. now apply hasKey_sameKey.
Qed.

(** A call that finds a record leaves the number of records, and of records
    with any given key, as it was. *)
Lemma saveItem_updated_counts (now : Z) (args a : Store.Args.t) (db : Store.Db)
  (c : Store.Card) :
  Store.existingCard db args = Some c ->
  let db' := fst (Store.saveItem now args db) in
  List.length (Store.user_review_deck db')
  = List.length (Store.user_review_deck db) /\
  List.length (Store.recordsFor a db') = List.length (Store.recordsFor a db).
Proof.
  intros E db'. subst db'. rewrite (saveItem_updated _ _ _ _ E).
  cbn [fst]. unfold Store.recordsFor, Store.patch. cbn [Store.user_review_deck].
  split.
  - apply length_map.
  - rewrite (filter_map_same _ _ _ (fun x => hasKey_patched a _ now args x)).
    apply length_map.
Qed.

(** C6.  [saveItem] is an upsert on the composite key.  With no record for
    the key it appends exactly one record, carrying the key, the state passed
    in and [lastReview = now], and reports [created] with the new identifier.
    With a record for the key it patches [nextReview], [interval],
    [easeFactor], [status] and [lastReview] of that record where it stands,
    keeps its identifier, user, type and item reference and every other
    record, and reports [updated] with the record's identifier.  Hence a second
    call for the same key always reports [updated] with the identifier the
    first call reported and adds no record: starting without a record for the
    key, two calls leave exactly one.  A record is a record for the key when
    [saveItem]'s query finds it; on a table of records as [saveItem] builds
    them, which [saveItem] keeps so, these are the records with the user, the
    item type and the item identifier of the key. *)
Theorem saveItem_upsert_idempotent :
  forall (now : Z) (args : Store.Args.t) (db : Store.Db),
    (Store.recordsFor args db = [] ->
     let card := Store.newCardData (Store.nextId db) now args in
     Store.saveItem now args db
     = ({| Store.user_review_deck := Store.user_review_deck db ++ [card];
           Store.nextId := N.succ (Store.nextId db) |},
        {| Store.action := Store.created; Store.id := Store.nextId db |}) /\
     Store.lastReview card = Some now /\
     Store.recordsFor args (fst (Store.saveItem now args db)) = [card])
    /\
    (forall c : Store.Card,
        Store.existingCard db args = Some c ->
        let db' := fst (Store.saveItem now args db) in
        snd (Store.saveItem now args db)
        = {| Store.action := Store.updated; Store.id := Store._id c |} /\
        map Store._id (Store.user_review_deck db')
        = map Store._id (Store.user_review_deck db) /\
        (forall k x, nth_error (Store.user_review_deck db) k = Some x ->
                     Store._id x <> Store._id c ->
                     nth_error (Store.user_review_deck db') k = Some x) /\
        (exists c',
            Store.existingCard db' args = Some c' /\
            Store._id c' = Store._id c /\
            Store.userId c' = Store.userId c /\
            Store.type c' = Store.type c /\
            Store.sentenceId c' = Store.sentenceId c /\
            Store.grammarId c' = Store.grammarId c /\
            Store.characterId c' = Store.characterId c /\
            Store.nextReview c' = Store.Args.nextReview args /\
            Store.interval c' = Store.Args.interval args /\
            Store.easeFactor c' = Store.Args.easeFactor args /\
            Store.status c' = Store.Args.status args /\
            Store.lastReview c' = Some now))
    /\
    (forall (now2 : Z) (args2 : Store.Args.t),
        Store.sameKey args args2 ->
        let r1 := Store.saveItem now args db in
        let r2 := Store.saveItem now2 args2 (fst r1) in
        Store.action (snd r2) = Store.updated /\
        Store.id (snd r2) = Store.id (snd r1) /\
        List.length (Store.user_review_deck (fst r2))
        = List.length (Store.user_review_deck (fst r1)) /\
        List.length (Store.recordsFor args (fst r2))
        = List.length (Store.recordsFor args (fst r1)) /\
        (Store.recordsFor args db = [] ->
         List.length (Store.recordsFor args (fst r2)) = 1%nat))
    /\
    (Forall Store.typed (Store.user_review_deck db) ->
     Forall Store.typed
       (Store.user_review_deck (fst (Store.saveItem now args db))) /\
     (forall c : Store.Card,
         In c (Store.user_review_deck db) ->
         (Store.hasKey args c = true <->
          Store.userId c = Store.Args.userId args /\
          Store.type c = Store.Args.itemType args /\
          Store.field (Store.idFieldOf (Store.type c)) c
          = Some (Store.Args.itemId args)))).
Proof.
  intros now args db. split; [|split; [|split]].
  - intros H card. rewrite (saveItem_created _ _ _ H). cbn [fst].
    repeat split.
    unfold Store.recordsFor in *. cbn [Store.user_review_deck].
    rewrite filter_app, H. cbn [filter app].
    subst card. now rewrite hasKey_newCardData.
  - intros c E db'. subst db'. rewrite (saveItem_updated _ _ _ _ E).
    cbn [fst snd Store.user_review_deck].
    split; [reflexivity|]. split; [apply patch_ids|]. split.
    + intros k x Hk Hne. now apply patch_other.
    + exists (Store.patchFields now args c).
      rewrite existingCard_hasKey in *. cbn [Store.user_review_deck].
      unfold Store.patch.
      rewrite (find_map_same _ _ _ (fun x => hasKey_patched args _ now args x)).
      rewrite E. cbn [option_map]. rewrite N.eqb_refl.
      repeat split.
  - intros now2 args2 K r1 r2.
    destruct (saveItem_then_found now args db) as [c1 [F [Hid _]]].
    fold r1 in F, Hid.
    assert (F2 : Store.existingCard (fst r1) args2 = Some c1)
      by now rewrite (existingCard_sameKey _ _ _ K).
    destruct (saveItem_updated_counts now2 args2 args (fst r1) c1 F2)
      as [Hlen Hcnt].
    fold r2 in Hlen, Hcnt.
    assert (R2 : snd r2 = {| Store.action := Store.updated;
                             Store.id := Store._id c1 |})
      by (subst r2; now rewrite (saveItem_updated _ _ _ _ F2)).
    rewrite R2. cbn [Store.action Store.id].
    split; [reflexivity|]. split; [exact Hid|].
    split; [exact Hlen|]. split; [exact Hcnt|].
    intro H0. rewrite Hcnt. subst r1.
    rewrite (saveItem_created _ _ _ H0). cbn [fst].
    unfold Store.recordsFor in *. cbn [Store.user_review_deck].
    rewrite filter_app, H0. cbn [filter app].
    now rewrite hasKey_newCardData.
  - intro T. split; [now apply saveItem_typed|].
    intros c Hin. apply hasKey_typed.
    rewrite Forall_forall in T. now apply T.
Qed.

Lemma saveItem_upsert_idempotent_witness :
  Store.sameKey (Samples.demoArgs 100 1 Review) (Samples.demoArgs 900 6 Review) /\
  Store.recordsFor (Samples.demoArgs 100 1 Review) Samples.emptyDb = [] /\
  List.length
    (Store.recordsFor (Samples.demoArgs 100 1 Review)
       (fst (Store.saveItem 20 (Samples.demoArgs 900 6 Review)
               (fst (Store.saveItem 10 (Samples.demoArgs 100 1 Review) Samples.emptyDb)))))
  = 1%nat.
Proof.
  assert (K : Store.sameKey (Samples.demoArgs 100 1 Review) (Samples.demoArgs 900 6 Review))
    by (repeat split).
  assert (E : Store.recordsFor (Samples.demoArgs 100 1 Review) Samples.emptyDb = [])
    by reflexivity.
  split; [exact K | split; [exact E |]].
  exact (proj2 (proj2 (proj2 (proj2
           (proj1 (proj2 (proj2 (saveItem_upsert_idempotent 10
                                   (Samples.demoArgs 100 1 Review)
                                   Samples.emptyDb)))
                  20 (Samples.demoArgs 900 6 Review) K)))) E).
Defined.

(** ** The offline queue *)

(** What one operation makes of the persisted queue. *)
Lemma runOp_persisted (st : OfflineCache.Storage) (op : OfflineCache.QueueOp) :
  let q := OfflineCache.persisted st in
  let q' := OfflineCache.persisted (OfflineCache.runOp st op) in
  q' = q \/ q' = [] \/
  exists x, OfflineCache.queuedBy [op] = [x] /\ (q' = q ++ [x] \/ q' = [x]).
Proof.
  intros q q'. subst q q'.
  destruct op as [uuid now rd wr action | ok | ok]; cbn [OfflineCache.runOp].
  - unfold OfflineCache.queuePendingReview.
    destruct rd, wr, st as [[l|raw|raw]|]; cbn; auto;
      right; right; eexists; (split; [reflexivity|]); auto.
  - left. reflexivity.
  - destruct ok; [right; left; reflexivity | left; reflexivity].
Qed.

Lemma persisted_queue (uuid : string) (now : Z)
  (action : OfflineCache.ReviewActionInput) (st : OfflineCache.Storage) :
  OfflineCache.holdsList st = true ->
  OfflineCache.queuePendingReview uuid now true true action st
  = (Some (OfflineCache.Json
             (OfflineCache.persisted st
              ++ [OfflineCache.Queued (OfflineCache.stamped (uuid, now, action))])),
     Returned tt).
Proof.
  destruct st as [[l|raw|raw]|]; cbn; intro H; try discriminate H; reflexivity.
Qed.

Lemma persisted_enqueueAll
  (calls : list (string * Z * OfflineCache.ReviewActionInput))
  (st : OfflineCache.Storage) :
  OfflineCache.holdsList st = true ->
  OfflineCache.persisted (OfflineCache.enqueueAll calls st)
  = OfflineCache.persisted st
    ++ map (fun c => OfflineCache.Queued (OfflineCache.stamped c)) calls.
Proof.
  revert st. induction calls as [|[[uuid now] action] calls IH]; intros st H.
  - cbn. now rewrite app_nil_r.
  - unfold OfflineCache.enqueueAll in *. cbn [fold_left map].
    rewrite (persisted_queue uuid now action st H). cbn [fst].
    rewrite IH by reflexivity. cbn [OfflineCache.persisted
      OfflineCache.getPendingReviews OfflineCache.getItem].
    now rewrite <- app_assoc.
Qed.

Lemma queuedBy_cons (op : OfflineCache.QueueOp) (ops : list OfflineCache.QueueOp) :
  OfflineCache.queuedBy (op :: ops)
  = OfflineCache.queuedBy [op] ++ OfflineCache.queuedBy ops.
Proof. unfold OfflineCache.queuedBy. cbn. now rewrite app_nil_r. Qed.

(** Over any run of operations, the persisted queue is the old one with
    newly queued entries behind it, or holds newly queued entries only. *)
Lemma runOps_persisted (ops : list OfflineCache.QueueOp)
  (st : OfflineCache.Storage) :
  let q := OfflineCache.persisted st in
  let q' := OfflineCache.persisted (OfflineCache.runOps st ops) in
  (exists l, q' = q ++ l /\ incl l (OfflineCache.queuedBy ops)) \/
  incl q' (OfflineCache.queuedBy ops).
Proof.
  revert st. induction ops as [|op ops IH]; intros st q q'; subst q q'.
  - left. exists []. split; [now rewrite app_nil_r | apply incl_refl].
  - unfold OfflineCache.runOps in *. cbn [fold_left].
    rewrite queuedBy_cons.
    specialize (IH (OfflineCache.runOp st op)). cbn zeta in IH.
    destruct (runOp_persisted st op) as [E|[E|[x [Q [E|E]]]]];
      cbn zeta in E; rewrite E in IH; try rewrite Q.
    + destruct IH as [[l [H I]]|I].
      * left. exists l. split; [exact H | now apply incl_appr].
      * right. now apply incl_appr.
    + right. destruct IH as [[l [H I]]|I].
      * rewrite H. cbn [app]. now apply incl_appr.
      * now apply incl_appr.
    + destruct IH as [[l [H I]]|I].
      * left. exists (x :: l). split.
        -- rewrite H, <- app_assoc. reflexivity.
        -- cbn [app]. apply incl_cons; [now left|]. now apply incl_tl.
      * right. cbn [app]. now apply incl_tl.
    + right. destruct IH as [[l [H I]]|I].
      * rewrite H. cbn [app]. apply incl_cons; [now left|]. now apply incl_tl.
      * cbn [app]. now apply incl_tl.
Qed.

(** An operation that draws an identifier outside [taken] queues no action
    whose identifier is in [taken]. *)
Lemma queuedBy_fresh (taken : list string) (ops : list OfflineCache.QueueOp)
  (a : OfflineCache.PendingReviewAction) :
  Forall (OfflineCache.drawsOutside taken) ops ->
  In (OfflineCache.id a) taken ->
  ~ In (OfflineCache.Queued a) (OfflineCache.queuedBy ops).
Proof.
  intros F T. induction F as [|op ops D F IH].
  - intros [].
  - rewrite queuedBy_cons. intro H. apply in_app_or in H.
    destruct H as [H|H]; [|exact (IH H)].
    destruct op as [uuid now rd wr action | ok | ok]; cbn in H;
      try contradiction.
    destruct H as [H|[]]. injection H as <-. cbn in D. exact (D T).
Qed.

(** C7, as stated, fails: the queue has nothing that replays actions and
    nothing that removes one action.  Two actions A and B are queued.  The
    flush of C7, with the write of A confirmed and the write of B failed,
    leaves B queued and A removed.  No run of the operations
    [OfflineCache] has on the queue ends there, whatever the storage does and
    whatever the store has confirmed, which the operations never look at: as
    long as B is queued, A is. *)
Lemma pending_queue_has_no_single_removal :
  OfflineCache.persisted Samples.twoQueued
  = [OfflineCache.Queued Samples.pendingA; OfflineCache.Queued Samples.pendingB]
  /\
  ~ exists ops : list OfflineCache.QueueOp,
      Forall (OfflineCache.drawsOutside ["a1"; "b2"]%string) ops /\
      In (OfflineCache.Queued Samples.pendingB)
         (OfflineCache.persisted (OfflineCache.runOps Samples.twoQueued ops)) /\
      ~ In (OfflineCache.Queued Samples.pendingA)
           (OfflineCache.persisted (OfflineCache.runOps Samples.twoQueued ops)).
Proof.
  split; [reflexivity|]. intros [ops [F [HB HA]]].
  destruct (runOps_persisted ops Samples.twoQueued) as [[l [E _]]|I];
    cbn zeta in *.
  - apply HA. rewrite E. apply in_or_app. left. now left.
  - apply (queuedBy_fresh _ _ Samples.pendingB F); [cbn; auto|].
    exact (I _ HB).
Qed.

(** C7, amended.  Nothing replays the queued actions; [OfflineCache] keeps
    them.  With the storage working, and unless what is stored parses to
    something that is not a list, [queuePendingReview] reports success and
    puts the new action, stamped with its identifier and time, at the end of
    the persisted list, so a run of calls leaves the list extended by their
    actions in call order.  [clearPendingReviews] removes
    the whole persisted queue in one step, without a look at the store.  No
    operation removes one action: after any run of operations the persisted
    queue is the old one followed by newly queued actions, or holds newly
    queued actions only. *)
Theorem pending_queue_fifo_clear_all :
  (forall uuid now action st,
      OfflineCache.holdsList st = true ->
      let r := OfflineCache.queuePendingReview uuid now true true action st in
      snd r = Returned tt /\
      OfflineCache.persisted (fst r)
      = OfflineCache.persisted st
        ++ [OfflineCache.Queued (OfflineCache.stamped (uuid, now, action))])
  /\
  (forall calls st,
      OfflineCache.holdsList st = true ->
      OfflineCache.persisted (OfflineCache.enqueueAll calls st)
      = OfflineCache.persisted st
        ++ map (fun c => OfflineCache.Queued (OfflineCache.stamped c)) calls)
  /\
  (forall st,
      OfflineCache.persisted (OfflineCache.clearPendingReviews true st) = [])
  /\
  (forall ops st,
      let q := OfflineCache.persisted st in
      let q' := OfflineCache.persisted (OfflineCache.runOps st ops) in
      (exists l, q' = q ++ l /\ incl l (OfflineCache.queuedBy ops)) \/
      incl q' (OfflineCache.queuedBy ops)).
Proof.
  split; [|split; [|split]].
  - intros uuid now action st H r. subst r.
    rewrite (persisted_queue uuid now action st H). split; reflexivity.
  - exact persisted_enqueueAll.
  - reflexivity.
  - exact runOps_persisted.
Qed.

(** ** The review session *)

Lemma world_eta (w : ReviewScreen.World) :
  {| ReviewScreen.screen := ReviewScreen.screen w;
     ReviewScreen.db := ReviewScreen.db w;
     ReviewScreen.offline := ReviewScreen.offline w |} = w.
Proof. destruct w; reflexivity. Qed.

(** A call of the mutation either throws and leaves the database as it was,
    or returns what the handler returns. *)
Lemma callSaveItem_cases (isId : Store.IdCheck) (now : Z) (args : Store.Args.t)
  (db : Store.Db) :
  (exists err, Store.callSaveItem isId now args db = (db, Thrown err)) \/
  Store.callSaveItem isId now args db
  = (fst (Store.saveItem now args db), Returned (snd (Store.saveItem now args db))).
Proof.
  unfold Store.callSaveItem.
  destruct (Store.validArgs isId args); [|left; eexists; reflexivity].
  destruct (Store.existingCard db args) as [c|] eqn:E.
  - right. destruct (Store.saveItem now args db); reflexivity.
  - destruct (Store.validInsert isId args); [|left; eexists; reflexivity].
    right. destruct (Store.saveItem now args db); reflexivity.
Qed.

(** A mutation that is rejected leaves the database as it was. *)
Lemma saveToSRS_thrown (net : ReviewScreen.Network) (args : Store.Args.t)
  (d d' : Store.Db) (err : string) :
  ReviewScreen.saveToSRS net args d = (d', Thrown err) -> d' = d.
Proof.
  destruct net as [t isId|e]; cbn [ReviewScreen.saveToSRS].
  - destruct (callSaveItem_cases isId t args d) as [[e E]|E]; rewrite E;
      intro H; now inversion H.
  - intro H. now inversion H.
Qed.

(** A mutation that returns has reached a backend and run the handler of
    [saveItem] there. *)
Lemma saveToSRS_returned (net : ReviewScreen.Network) (args : Store.Args.t)
  (d d' : Store.Db) (r : Store.SaveResult) :
  ReviewScreen.saveToSRS net args d = (d', Returned r) ->
  exists t isId,
    net = ReviewScreen.Online t isId /\ Store.saveItem t args d = (d', r).
Proof.
  destruct net as [t isId|e]; cbn [ReviewScreen.saveToSRS]; [|discriminate].
  intro H. exists t, isId. split; [reflexivity|].
  destruct (callSaveItem_cases isId t args d) as [[e E]|E]; rewrite E in H.
  - discriminate H.
  - inversion H. now destruct (Store.saveItem t args d).
Qed.

(** [handleGrade] when the mutation is rejected: it stops there and leaves
    the world as it found it. *)
Lemma handleGrade_thrown (clientNow : Z) (net : ReviewScreen.Network) (g : Z)
  (w : ReviewScreen.World) (item : ReviewScreen.ReviewItem)
  (d' : Store.Db) (err : string) :
  nth_error (ReviewScreen.sessionQueue (ReviewScreen.screen w))
            (ReviewScreen.currentIndex (ReviewScreen.screen w)) = Some item ->
  ReviewScreen.saveToSRS net (ReviewScreen.gradeArgs clientNow g item)
    (ReviewScreen.db w) = (d', Thrown err) ->
  ReviewScreen.handleGrade clientNow net g w = (w, Thrown err).
Proof.
  intros H S. unfold ReviewScreen.handleGrade. rewrite H, S.
  rewrite (saveToSRS_thrown _ _ _ _ _ S). now rewrite world_eta.
Qed.

Lemma handleGrade_unreachable (clientNow : Z) (err : string) (g : Z)
  (w : ReviewScreen.World) (item : ReviewScreen.ReviewItem) :
  nth_error (ReviewScreen.sessionQueue (ReviewScreen.screen w))
            (ReviewScreen.currentIndex (ReviewScreen.screen w)) = Some item ->
  ReviewScreen.handleGrade clientNow (ReviewScreen.Unreachable err) g w
  = (w, Thrown err).
Proof.
  intro H. now apply handleGrade_thrown with (item := item) (d' := ReviewScreen.db w).
Qed.

(** [handleGrade] when the mutation goes through. *)
Lemma handleGrade_returned (clientNow : Z) (net : ReviewScreen.Network) (g : Z)
  (w : ReviewScreen.World) (item : ReviewScreen.ReviewItem)
  (d' : Store.Db) (r : Store.SaveResult) :
  nth_error (ReviewScreen.sessionQueue (ReviewScreen.screen w))
            (ReviewScreen.currentIndex (ReviewScreen.screen w)) = Some item ->
  ReviewScreen.saveToSRS net (ReviewScreen.gradeArgs clientNow g item)
    (ReviewScreen.db w) = (d', Returned r) ->
  ReviewScreen.handleGrade clientNow net g w
  = ({| ReviewScreen.screen := ReviewScreen.recordGrade g (ReviewScreen.screen w);
        ReviewScreen.db := d';
        ReviewScreen.offline := ReviewScreen.offline w |},
     Returned tt).
Proof.
  intros H S. unfold ReviewScreen.handleGrade. now rewrite H, S.
Qed.

(** The grading handler never writes to the offline storage. *)
Lemma handleGrade_offline_untouched (clientNow : Z) (net : ReviewScreen.Network)
  (g : Z) (w : ReviewScreen.World) :
  ReviewScreen.offline (fst (ReviewScreen.handleGrade clientNow net g w))
  = ReviewScreen.offline w.
Proof.
  unfold ReviewScreen.handleGrade.
  destruct (nth_error _ _) as [item|]; [|reflexivity].
  destruct (ReviewScreen.saveToSRS _ _ _) as [d' [r|err]]; reflexivity.
Qed.

(** C8, as stated, fails.  A session is active on the first of two cards,
    turned over; the learner presses Good while the backend is unreachable.
    [handleGrade] ends with the error: the session is still on the first
    card, nothing was counted, and the offline queue is still empty. *)
Lemma handleGrade_failure_neither_advances_nor_queues :
  ReviewScreen.viewState (ReviewScreen.screen Samples.flippedWorld)
  = ReviewScreen.session /\
  List.length (ReviewScreen.sessionQueue (ReviewScreen.screen Samples.flippedWorld))
  = 2%nat /\
  ReviewScreen.currentIndex (ReviewScreen.screen Samples.flippedWorld) = 0%nat /\
  snd Samples.failedGood = Thrown "Failed to fetch" /\
  ReviewScreen.currentIndex (ReviewScreen.screen (fst Samples.failedGood))
  = 0%nat /\
  ReviewScreen.sessionResults (ReviewScreen.screen (fst Samples.failedGood))
  = ReviewScreen.mkResults 0 0 0 /\
  OfflineCache.persisted (ReviewScreen.offline (fst Samples.failedGood)) = [] /\
  ReviewScreen.step Samples.flippedWorld
    (ReviewScreen.ClickGrade ReviewScreen.Good 5000
       (ReviewScreen.Unreachable "Failed to fetch"))
  = Samples.flippedWorld.
Proof.
  repeat split.
Qed.

(** C8, amended.  When the upsert triggered by grading a card fails, because
    the backend is not reached or because the call is turned down there,
    [handleGrade] ends with that error and changes nothing: the session stays
    on the same card with the same statistics and view, and nothing is put in
    the offline queue, which the grading handler never writes to.  When the
    upsert succeeds, the grade is counted and the session moves to the next
    card, or to the summary after the last one; it succeeds on a backend
    that is reached and takes the identifiers of the call. *)
Theorem handleGrade_failed_upsert_stops :
  forall (clientNow g : Z) (w : ReviewScreen.World)
         (item : ReviewScreen.ReviewItem),
    nth_error (ReviewScreen.sessionQueue (ReviewScreen.screen w))
              (ReviewScreen.currentIndex (ReviewScreen.screen w)) = Some item ->
    (forall err,
        ReviewScreen.handleGrade clientNow (ReviewScreen.Unreachable err) g w
        = (w, Thrown err))
    /\
    (forall net d' err,
        ReviewScreen.saveToSRS net (ReviewScreen.gradeArgs clientNow g item)
          (ReviewScreen.db w) = (d', Thrown err) ->
        ReviewScreen.handleGrade clientNow net g w = (w, Thrown err))
    /\
    (forall net,
        ReviewScreen.offline (fst (ReviewScreen.handleGrade clientNow net g w))
        = ReviewScreen.offline w)
    /\
    (forall net d' res,
        ReviewScreen.saveToSRS net (ReviewScreen.gradeArgs clientNow g item)
          (ReviewScreen.db w) = (d', Returned res) ->
        let r := ReviewScreen.handleGrade clientNow net g w in
        let s := ReviewScreen.screen w in
        let s' := ReviewScreen.screen (fst r) in
        snd r = Returned tt /\
        ReviewScreen.xpGained (ReviewScreen.sessionResults s')
        = ReviewScreen.xpGained (ReviewScreen.sessionResults s) + g * 10 /\
        (S (ReviewScreen.currentIndex s)
         < List.length (ReviewScreen.sessionQueue s) ->
         ReviewScreen.currentIndex s' = S (ReviewScreen.currentIndex s) /\
         ReviewScreen.isFlipped s' = false /\
         ReviewScreen.viewState s' = ReviewScreen.viewState s)%nat /\
        (S (ReviewScreen.currentIndex s)
         = List.length (ReviewScreen.sessionQueue s) ->
         ReviewScreen.viewState s' = ReviewScreen.summary))
    /\
    (forall t isId,
        Store.validArgs isId (ReviewScreen.gradeArgs clientNow g item) = true ->
        Store.validInsert isId (ReviewScreen.gradeArgs clientNow g item) = true ->
        exists d' res,
          ReviewScreen.saveToSRS (ReviewScreen.Online t isId)
            (ReviewScreen.gradeArgs clientNow g item) (ReviewScreen.db w)
          = (d', Returned res)).
Proof.
  intros clientNow g w item H. split; [|split; [|split; [|split]]].
  5:{ intros t isId V I. cbn [ReviewScreen.saveToSRS].
      unfold Store.callSaveItem. rewrite V, I.
      destruct (Store.existingCard _ _);
        destruct (Store.saveItem t _ _) as [d' res]; now exists d', res. }
  - intro err. now apply handleGrade_unreachable with (item := item).
  - intros net d' err S. now apply handleGrade_thrown with (item := item) (d' := d').
  - intro net. apply handleGrade_offline_untouched.
  - intros net d' res S r s s'. subst r s s'.
    rewrite (handleGrade_returned _ _ _ _ _ _ _ H S).
    cbn [fst snd ReviewScreen.screen].
    unfold ReviewScreen.recordGrade.
    split; [reflexivity|].
    destruct (Z.of_nat (ReviewScreen.currentIndex (ReviewScreen.screen w))
              <? Z.of_nat (List.length
                             (ReviewScreen.sessionQueue (ReviewScreen.screen w)))
                 - 1) eqn:E;
      cbn [ReviewScreen.sessionResults ReviewScreen.xpGained
           ReviewScreen.currentIndex ReviewScreen.isFlipped
           ReviewScreen.viewState].
    + apply Z.ltb_lt in E. repeat split; intros; lia.
    + apply Z.ltb_ge in E. repeat split; intros; lia.
Qed.

Lemma handleGrade_failed_upsert_stops_witness :
  nth_error
    (ReviewScreen.sessionQueue (ReviewScreen.screen Samples.flippedWorld))
    (ReviewScreen.currentIndex (ReviewScreen.screen Samples.flippedWorld))
  = Some Samples.firstItem
  /\
  ReviewScreen.handleGrade 5000 (ReviewScreen.Unreachable "Failed to fetch") 3
    Samples.flippedWorld
  = (Samples.flippedWorld, Thrown "Failed to fetch")
  /\
  ReviewScreen.handleGrade 5000 (ReviewScreen.Online 5001 Samples.deployment) 3
    Samples.flippedWorld
  = (Samples.flippedWorld, Thrown "ArgumentValidationError").
Proof.
  assert (H : nth_error
                (ReviewScreen.sessionQueue
                   (ReviewScreen.screen Samples.flippedWorld))
                (ReviewScreen.currentIndex
                   (ReviewScreen.screen Samples.flippedWorld))
              = Some Samples.firstItem)
    by reflexivity.
  split; [exact H|]. split.
  - exact (proj1 (handleGrade_failed_upsert_stops 5000 3 Samples.flippedWorld _ H)
                 "Failed to fetch"%string).
  - refine (proj1 (proj2 (handleGrade_failed_upsert_stops 5000 3
                            Samples.flippedWorld _ H))
                  (ReviewScreen.Online 5001 Samples.deployment)
                  (ReviewScreen.db Samples.flippedWorld)
                  "ArgumentValidationError"%string _).
    reflexivity.
Defined.

Lemma recordGrade_queue (g : Z) (s : ReviewScreen.Screen) :
  ReviewScreen.sessionQueue (ReviewScreen.recordGrade g s)
  = ReviewScreen.sessionQueue s.
Proof.
  unfold ReviewScreen.recordGrade. destruct (_ <? _); reflexivity.
Qed.

Lemma handleGrade_queue (clientNow : Z) (net : ReviewScreen.Network) (g : Z)
  (w : ReviewScreen.World) :
  ReviewScreen.sessionQueue
    (ReviewScreen.screen (fst (ReviewScreen.handleGrade clientNow net g w)))
  = ReviewScreen.sessionQueue (ReviewScreen.screen w).
Proof.
  unfold ReviewScreen.handleGrade.
  destruct (nth_error _ _) as [item|]; [|reflexivity].
  destruct (ReviewScreen.saveToSRS _ _ _) as [d' [r|err]]; cbn [fst ReviewScreen.screen].
  - apply recordGrade_queue.
  - reflexivity.
Qed.

(** While a session is active, no event replaces the session queue: the
    only handler that sets it is [startSession], whose button the active view
    does not render. *)
Lemma step_keeps_queue (w : ReviewScreen.World) (e : ReviewScreen.Event) :
  ReviewScreen.viewState (ReviewScreen.screen w) = ReviewScreen.session ->
  ReviewScreen.sessionQueue (ReviewScreen.screen (ReviewScreen.step w e))
  = ReviewScreen.sessionQueue (ReviewScreen.screen w).
Proof.
  intro V. unfold ReviewScreen.step, ReviewScreen.view.
  destruct (ReviewScreen.reviewDeck (ReviewScreen.screen w)) as [deck|];
    rewrite ?V; destruct e; try reflexivity.
  destruct (ReviewScreen.isFlipped (ReviewScreen.screen w)); [|reflexivity].
  apply handleGrade_queue.
Qed.

Lemma run_keeps_queue (es : list ReviewScreen.Event) (w : ReviewScreen.World) :
  ReviewScreen.staysActive w es ->
  ReviewScreen.sessionQueue (ReviewScreen.screen (ReviewScreen.run w es))
  = ReviewScreen.sessionQueue (ReviewScreen.screen w).
Proof.
  revert w. induction es as [|e es IH]; intros w H.
  - reflexivity.
  - destruct H as [V H]. unfold ReviewScreen.run in *. cbn [fold_left].
    rewrite (IH _ H). now apply step_keeps_queue.
Qed.

(** C9.  With no due item [startSession] changes nothing, so the screen
    stays on the dashboard, also when the button is pressed.  With due items
    it moves to the active session with the due items, in their order, as
    session queue, so the queue is as long as the due set, at index 0.  From
    then on, for as long as the session is active, no sequence of events
    changes the queue, new query results that change the due set included. *)
Theorem startSession_refused_or_frozen_queue :
  (forall s : ReviewScreen.Screen,
      ReviewScreen.dueItems s = [] ->
      ReviewScreen.startSession s = s /\
      (ReviewScreen.viewState s = ReviewScreen.dashboard ->
       ReviewScreen.viewState (ReviewScreen.startSession s)
       = ReviewScreen.dashboard))
  /\
  (forall w : ReviewScreen.World,
      ReviewScreen.dueItems (ReviewScreen.screen w) = [] ->
      ReviewScreen.step w ReviewScreen.ClickStartSession = w)
  /\
  (forall s : ReviewScreen.Screen,
      ReviewScreen.dueItems s <> [] ->
      let s' := ReviewScreen.startSession s in
      ReviewScreen.viewState s' = ReviewScreen.session /\
      ReviewScreen.sessionQueue s' = ReviewScreen.dueItems s /\
      List.length (ReviewScreen.sessionQueue s')
      = List.length (ReviewScreen.dueItems s) /\
      ReviewScreen.currentIndex s' = 0%nat)
  /\
  (forall (w : ReviewScreen.World) (es : list ReviewScreen.Event),
      ReviewScreen.staysActive w es ->
      ReviewScreen.sessionQueue (ReviewScreen.screen (ReviewScreen.run w es))
      = ReviewScreen.sessionQueue (ReviewScreen.screen w)).
Proof.
  split; [|split; [|split]].
  - intros s H. unfold ReviewScreen.startSession. rewrite H. auto.
  - intros w H. unfold ReviewScreen.step.
    destruct (ReviewScreen.view (ReviewScreen.screen w)); try reflexivity.
    unfold ReviewScreen.onScreen, ReviewScreen.startSession. rewrite H.
    apply world_eta.
  - intros s H s'. subst s'. unfold ReviewScreen.startSession.
    destruct (ReviewScreen.dueItems s) as [|x l] eqn:E; [contradiction|].
    cbn. auto.
  - intros w es. apply run_keeps_queue.
Qed.

Lemma startSession_refused_or_frozen_queue_witness :
  ReviewScreen.staysActive Samples.startedWorld Samples.sessionEvents /\
  List.length
    (ReviewScreen.dueItems
       (ReviewScreen.screen
          (ReviewScreen.run Samples.startedWorld Samples.sessionEvents)))
  = 3%nat /\
  List.length
    (ReviewScreen.sessionQueue (ReviewScreen.screen Samples.startedWorld))
  = 2%nat /\
  ReviewScreen.sessionQueue
    (ReviewScreen.screen
       (ReviewScreen.run Samples.startedWorld Samples.sessionEvents))
  = ReviewScreen.sessionQueue (ReviewScreen.screen Samples.startedWorld).
Proof.
  assert (H : ReviewScreen.staysActive Samples.startedWorld
                Samples.sessionEvents)
    by (cbn; repeat split).
  split; [exact H|]. split; [reflexivity|]. split; [reflexivity|].
  exact (proj2 (proj2 (proj2 startSession_refused_or_frozen_queue))
               Samples.startedWorld Samples.sessionEvents H).
Defined.

(** ** What the grading handler persists *)






(* ====================================================================== *)
(** * Further properties *)
(* ====================================================================== *)

(** ** The scheduler over successive reviews *)

Lemma Qceiling_above (x : Q) (n : Z) :
  (inject_Z n < x)%Q -> n < Qceiling x.
Proof.
  intro H. pose proof (Qle_ceiling x) as C.
  rewrite Zlt_Qlt. apply Qlt_le_trans with (y := x); assumption.
Qed.

Lemma newInterval_failure (g : Z) (ef : Q) (prev : Z) :
  g < 3 -> Scheduler.newInterval g ef prev = 1.
Proof.
  intro Hg. unfold Scheduler.newInterval.
  assert (G : (g <? 3) = true) by (apply Z.ltb_lt; lia).
  now rewrite G.
Qed.

Lemma newInterval_success_longer (g : Z) (ef : Q) (prev : Z) :
  3 <= g -> 0 <= prev -> prev < Scheduler.newInterval g ef prev.
Proof.
  intros Hg Hp. unfold Scheduler.newInterval.
  assert (G : (g <? 3) = false) by (apply Z.ltb_ge; lia). rewrite G.
  destruct (prev =? 0) eqn:E0; [apply Z.eqb_eq in E0; lia|].
  destruct (prev =? 1) eqn:E1; [apply Z.eqb_eq in E1; lia|].
  apply Z.eqb_neq in E0, E1.
  apply Qceiling_above.
  pose proof (newEaseFactor_floor g ef) as F.
  unfold Scheduler.MIN_EASE_FACTOR in F.
  assert (Hq : (inject_Z 2 <= inject_Z prev)%Q) by (rewrite <- Zle_Qle; lia).
  change (inject_Z 2) with 2%Q in Hq.
  nra.
Qed.

Lemma newInterval_positive (g : Z) (ef : Q) (prev : Z) :
  0 <= prev -> 1 <= Scheduler.newInterval g ef prev.
Proof.
  intro Hp. destruct (Z_lt_ge_dec g 3) as [Hg|Hg].
  - rewrite (newInterval_failure g ef prev Hg). lia.
  - assert (Hg' : 3 <= g) by lia.
    pose proof (newInterval_success_longer g ef prev Hg' Hp). lia.
Qed.





Lemma rawEaseFactor_delta (g : Z) (ef : Q) :
  0 <= g <= 5 ->
  (Scheduler.rawEaseFactor g ef == ef + Reviews.easeDelta g)%Q.
Proof.
  intro Hg. unfold Scheduler.rawEaseFactor.
  assert (C : g = 0 \/ g = 1 \/ g = 2 \/ g = 3 \/ g = 4 \/ g = 5) by lia.
  destruct C as [-> | [-> | [-> | [-> | [-> | ->]]]]];
    cbn [Reviews.easeDelta]; unfold inject_Z; field.
Qed.

(** For the grades 0 to 5 and a stored ease factor, the returned ease factor
    is the previous one changed by -0.80, -0.54, -0.32, -0.14, 0 and +0.10
    respectively, and 1.3 where that would be lower. *)
Theorem calculateSRS_easeFactor_table :
  forall (now g : Z) (ef : Q) (prev : Z),
    0 <= g <= 5 -> Scheduler.hundredths ef ->
    (Scheduler.easeFactor
       (Scheduler.calculateSRS now (Scheduler.mkInput g ef prev))
     == if Qltb (ef + Reviews.easeDelta g) 1.3 then 1.3
        else ef + Reviews.easeDelta g)%Q.
Proof.
  intros now g ef prev Hg Hh.
  cbn [Scheduler.calculateSRS Scheduler.easeFactor Scheduler.grade
       Scheduler.previousEaseFactor].
  rewrite (toFixed2_newEaseFactor g ef Hh).
  unfold Scheduler.newEaseFactor, Scheduler.MIN_EASE_FACTOR.
  pose proof (rawEaseFactor_delta g ef Hg) as R.
  rewrite (Qltb_comp _ _ _ _ R (Qeq_refl 1.3)).
  destruct (Qltb (ef + Reviews.easeDelta g) 1.3); [reflexivity | exact R].
Qed.

Lemma calculateSRS_easeFactor_table_witness :
  0 <= 2 <= 5 /\ Scheduler.hundredths 2.5 /\
  (Scheduler.easeFactor
     (Scheduler.calculateSRS 0 (Scheduler.mkInput 2 2.5 6))
   == if Qltb (2.5 + Reviews.easeDelta 2) 1.3 then 1.3
      else 2.5 + Reviews.easeDelta 2)%Q.
Proof.
  assert (Hg : 0 <= 2 <= 5) by lia.
  assert (Hh : Scheduler.hundredths 2.5) by (exists 250; reflexivity).
  split; [exact Hg | split; [exact Hh |]].
  exact (calculateSRS_easeFactor_table 0 2 2.5%Q 6 Hg Hh).
Defined.

(** Only a grade above 4 can raise the ease factor: for every grade up to 4
    and every stored ease factor of at least 1.3, the returned ease factor is
    not above the previous one. *)
Theorem calculateSRS_easeFactor_not_raised :
  forall (now g : Z) (ef : Q) (prev : Z),
    g <= 4 -> Scheduler.hundredths ef -> (1.3 <= ef)%Q ->
    (Scheduler.easeFactor
       (Scheduler.calculateSRS now (Scheduler.mkInput g ef prev))
     <= ef)%Q.
Proof.
  intros now g ef prev Hg Hh He.
  cbn [Scheduler.calculateSRS Scheduler.easeFactor Scheduler.grade
       Scheduler.previousEaseFactor].
  rewrite (toFixed2_newEaseFactor g ef Hh).
  unfold Scheduler.newEaseFactor, Scheduler.MIN_EASE_FACTOR.
  destruct (Qltb (Scheduler.rawEaseFactor g ef) 1.3); [exact He|].
  unfold Scheduler.rawEaseFactor.
  assert (Hk : (inject_Z g <= inject_Z 4)%Q) by (rewrite <- Zle_Qle; lia).
  change (inject_Z 4) with 4%Q in Hk.
  nra.
Qed.

Lemma calculateSRS_easeFactor_not_raised_witness :
  3 <= 4 /\ Scheduler.hundredths 2.5 /\ (1.3 <= 2.5)%Q /\
  (Scheduler.easeFactor
     (Scheduler.calculateSRS 0 (Scheduler.mkInput 3 2.5 6)) <= 2.5)%Q.
Proof.
  assert (Hg : 3 <= 4) by lia.
  assert (Hh : Scheduler.hundredths 2.5) by (exists 250; reflexivity).
  assert (He : (1.3 <= 2.5)%Q) by discriminate.
  split; [exact Hg | split; [exact Hh | split; [exact He |]]].
  exact (calculateSRS_easeFactor_not_raised 0 3 2.5%Q 6 Hg Hh He).
Defined.



Lemma toFixed2_hundredths (x : Q) : Scheduler.hundredths (Scheduler.toFixed2 x).
Proof.
  unfold Scheduler.toFixed2, Scheduler.roundHundredths, Scheduler.hundredths.
  destruct (Qltb x 0).
  - exists (- Qfloor (- x * 100 + (1 # 2))%Q). reflexivity.
  - exists (Qfloor (x * 100 + (1 # 2))%Q). reflexivity.
Qed.

Lemma calculateSRS_stable (now g : Z) (st : Scheduler.SRSOutput) :
  0 <= Scheduler.interval st ->
  let out := Scheduler.calculateSRS now (Reviews.inputFrom g st) in
  Reviews.stable out /\ 1 <= Scheduler.interval out /\
  Scheduler.status out <> New.
Proof.
  intros Hi out. subst out. unfold Reviews.stable.
  pose proof (easeFactor_floor_any now (Reviews.inputFrom g st)) as F.
  cbn [Scheduler.calculateSRS Scheduler.easeFactor Scheduler.interval
       Scheduler.status Reviews.inputFrom Scheduler.grade
       Scheduler.previousEaseFactor Scheduler.previousInterval] in *.
  pose proof (newInterval_positive g (Scheduler.easeFactor st) _ Hi) as I.
  repeat split; try assumption; try lia.
  - apply toFixed2_hundredths.
  - unfold Scheduler.newStatus.
    destruct (g <? 3); [discriminate|]. destruct (180 <? _); discriminate.
Qed.

(** Scheduling can go on from its own results.  Starting from the state of a
    new item and feeding each returned state into the next review, after any
    sequence of reviews, whatever their grades, the state has an ease factor
    of at least 1.3 with two decimals and an interval that is not negative;
    after at least one review the interval is at least one day and the status
    is no longer new. *)
Theorem reviewAll_keeps_stable :
  forall (now0 : Z) (rs : list (Z * Z)),
    let st := Reviews.reviewAll rs (Scheduler.getInitialSRSState now0) in
    Reviews.stable st /\
    (rs <> [] -> 1 <= Scheduler.interval st /\ Scheduler.status st <> New).
Proof.
  intros now0 rs. induction rs as [|r rs IH] using rev_ind; intro st; subst st.
  - split; [|congruence].
    unfold Reviews.stable. cbn. repeat split; try discriminate.
    exists 250. reflexivity.
  - unfold Reviews.reviewAll in *. rewrite fold_left_app. cbn [fold_left].
    destruct IH as [[_ [_ Hi]] _].
    destruct (calculateSRS_stable (fst r) (snd r) _ Hi) as [S [I N]].
    split; [exact S|]. intros _. split; assumption.
Qed.

Lemma reviewAll_keeps_stable_witness :
  [(1000, 5); (2000, 1); (3000, 3)] <> [] /\
  1 <= Scheduler.interval
         (Reviews.reviewAll [(1000, 5); (2000, 1); (3000, 3)]
            (Scheduler.getInitialSRSState 0)).
Proof.
  assert (H : [(1000, 5); (2000, 1); (3000, 3)] <> []) by discriminate.
  split; [exact H|].
  exact (proj1 (proj2 (reviewAll_keeps_stable 0
                         [(1000, 5); (2000, 1); (3000, 3)]) H)).
Defined.


(** ** Histories of the review store *)

Lemma hasKey_newCardData_only (a args : Store.Args.t) (i : N) (now : Z) :
  Store.hasKey a (Store.newCardData i now args) = true ->
  Store.sameKey args a.
Proof.
  unfold Store.hasKey, Store.fieldIs, Store.newCardData, Store.sameKey.
  cbn [Store.userId]. rewrite andb_true_iff, String.eqb_eq.
  intros [Hu Hf]. split; [exact Hu|].
  destruct (Store.Args.itemType args), (Store.Args.itemType a);
    cbn in Hf; try discriminate Hf;
    apply String.eqb_eq in Hf; auto.
Qed.

Lemma recordsFor_sameKey (a b : Store.Args.t) (db : Store.Db) :
  Store.sameKey a b -> Store.recordsFor b db = Store.recordsFor a db.
Proof.
  intro K. unfold Store.recordsFor. apply filter_ext.
  intro c. now apply hasKey_sameKey.
Qed.

(** One call keeps the bound of one record per key. *)
Lemma saveItem_at_most_one (now : Z) (args : Store.Args.t) (db : Store.Db) :
  (forall a, (List.length (Store.recordsFor a db) <= 1)%nat) ->
  forall a,
    (List.length (Store.recordsFor a (fst (Store.saveItem now args db))) <= 1)%nat.
Proof.
  intros H a.
  destruct (Store.existingCard db args) as [c|] eqn:E.
  - destruct (saveItem_updated_counts now args a db c E) as [_ Hc].
    rewrite Hc. apply H.
  - apply existingCard_none in E.
    rewrite (saveItem_created _ _ _ E). cbn [fst].
    unfold Store.recordsFor in *. cbn [Store.user_review_deck].
    rewrite filter_app, length_app. cbn [filter].
    destruct (Store.hasKey a (Store.newCardData (Store.nextId db) now args))
      eqn:K; cbn [List.length].
    + apply hasKey_newCardData_only in K.
      pose proof (recordsFor_sameKey _ _ db K) as R.
      unfold Store.recordsFor in R. rewrite R, E. cbn. lia.
    + specialize (H a). lia.
Qed.

(** The store never holds two records for one key.  After any sequence of
    [saveItem] calls on the empty table, whatever their arguments and order,
    every key (user, item type, item identifier) has at most one record. *)
Theorem saveAll_one_record_per_key :
  forall (calls : list (Z * Store.Args.t)) (a : Store.Args.t),
    (List.length
       (Store.recordsFor a (StoreInv.saveAll calls StoreInv.initialDb))
     <= 1)%nat.
Proof.
  intros calls.
  assert (G : forall db,
             (forall a, (List.length (Store.recordsFor a db) <= 1)%nat) ->
             forall a,
               (List.length (Store.recordsFor a (StoreInv.saveAll calls db))
                <= 1)%nat).
  { induction calls as [|[now args] calls IH]; intros db H a.
    - apply H.
    - unfold StoreInv.saveAll in *. cbn [fold_left fst snd].
      apply IH. now apply saveItem_at_most_one. }
  apply G. intro a. cbn. lia.
Qed.

Lemma Forall_map_same (A : Type) (P : A -> Prop) (f : A -> A) (l : list A) :
  (forall x, P x -> P (f x)) -> Forall P l -> Forall P (map f l).
Proof.
  intros Hf H. induction H; cbn [map]; constructor; auto.
Qed.

(** One call keeps the table well formed, and an identifier it hands out is
    new. *)
Lemma saveItem_wf (now : Z) (args : Store.Args.t) (db : Store.Db) :
  StoreInv.wf db ->
  StoreInv.wf (fst (Store.saveItem now args db)) /\
  (Store.action (snd (Store.saveItem now args db)) = Store.created ->
   ~ In (Store.id (snd (Store.saveItem now args db)))
        (map Store._id (Store.user_review_deck db))).
Proof.
  intros [Hn [Hb Ht]].
  assert (Fresh : ~ In (Store.nextId db)
                       (map Store._id (Store.user_review_deck db))).
  { intro Hin. apply in_map_iff in Hin. destruct Hin as [c [Hc Hin]].
    rewrite Forall_forall in Hb. specialize (Hb c Hin). lia. }
  split.
  - unfold StoreInv.wf. split; [|split].
    + destruct (Store.existingCard db args) as [c|] eqn:E.
      * rewrite (saveItem_updated _ _ _ _ E). cbn [fst Store.user_review_deck].
        now rewrite patch_ids.
      * apply existingCard_none in E. rewrite (saveItem_created _ _ _ E).
        cbn [fst Store.user_review_deck]. rewrite map_app. cbn [map].
        apply NoDup_app; [exact Hn | constructor; [intros [] | constructor] |].
        intros x Hx [<- | []]. exact (Fresh Hx).
    + destruct (Store.existingCard db args) as [c|] eqn:E.
      * rewrite (saveItem_updated _ _ _ _ E).
        cbn [fst Store.user_review_deck Store.nextId]. unfold Store.patch.
        apply Forall_map_same; [|exact Hb].
        intros x Hx. destruct (N.eqb (Store._id x) (Store._id c)); exact Hx.
      * apply existingCard_none in E. rewrite (saveItem_created _ _ _ E).
        cbn [fst Store.user_review_deck Store.nextId].
        apply Forall_app. split.
        -- apply Forall_impl with (2 := Hb). intros x Hx. lia.
        -- constructor; [cbn; lia | constructor].
    + now apply saveItem_typed.
  - destruct (Store.existingCard db args) as [c|] eqn:E.
    + rewrite (saveItem_updated _ _ _ _ E). cbn. discriminate.
    + apply existingCard_none in E. rewrite (saveItem_created _ _ _ E).
      cbn [snd Store.id]. intros _. exact Fresh.
Qed.

Lemma saveAll_wf (calls : list (Z * Store.Args.t)) (db : Store.Db) :
  StoreInv.wf db -> StoreInv.wf (StoreInv.saveAll calls db).
Proof.
  revert db. induction calls as [|[now args] calls IH]; intros db H.
  - exact H.
  - unfold StoreInv.saveAll in *. cbn [fold_left fst snd].
    apply IH. now apply saveItem_wf.
Qed.

Lemma initialDb_wf : StoreInv.wf StoreInv.initialDb.
Proof.
  unfold StoreInv.wf. cbn. repeat split; constructor.
Qed.

(** Record identifiers stay unique.  After any sequence of [saveItem] calls
    on the empty table the identifiers of the records are pairwise distinct,
    and when a further call reports [created], the identifier it returns
    belongs to no record that was there before. *)
Theorem saveAll_ids_unique :
  forall (calls : list (Z * Store.Args.t)) (now : Z) (args : Store.Args.t),
    NoDup (map Store._id
             (Store.user_review_deck
                (StoreInv.saveAll calls StoreInv.initialDb))) /\
    (Store.action
       (snd (Store.saveItem now args
               (StoreInv.saveAll calls StoreInv.initialDb)))
     = Store.created ->
     ~ In (Store.id
             (snd (Store.saveItem now args
                     (StoreInv.saveAll calls StoreInv.initialDb))))
          (map Store._id
             (Store.user_review_deck
                (StoreInv.saveAll calls StoreInv.initialDb)))).
Proof.
  intros calls now args.
  pose proof (saveAll_wf calls _ initialDb_wf) as W.
  split.
  - exact (proj1 W).
  - exact (proj2 (saveItem_wf now args _ W)).
Qed.

Lemma find_app_skip (A : Type) (p : A -> bool) (l : list A) (x : A) :
  p x = false -> find p (l ++ [x]) = find p l.
Proof.
  intro H. induction l as [|y l IH]; cbn [app find].
  - now rewrite H.
  - destruct (p y); [reflexivity | exact IH].
Qed.

Lemma find_map_frame (A : Type) (p : A -> bool) (f : A -> A) (l : list A) :
  (forall x, p (f x) = p x) ->
  (forall x, In x l -> f x = x \/ p x = false) ->
  find p (map f l) = find p l.
Proof.
  intros Hp Hf. induction l as [|x l IH]; [reflexivity|].
  cbn [map find]. rewrite Hp.
  destruct (p x) eqn:E.
  - destruct (Hf x (or_introl eq_refl)) as [-> | H]; [reflexivity|congruence].
  - apply IH. intros y Hy. apply Hf. now right.
Qed.

Lemma NoDup_map_same_image (A B : Type) (f : A -> B) (l : list A) (x y : A) :
  NoDup (map f l) -> In x l -> In y l -> f x = f y -> x = y.
Proof.
  induction l as [|z l IH]; cbn [map]; intros Hn Hx Hy E; [contradiction|].
  apply NoDup_cons_iff in Hn. destruct Hn as [Hz Hn].
  destruct Hx as [-> | Hx], Hy as [-> | Hy].
  - reflexivity.
  - exfalso. apply Hz. rewrite E. now apply in_map.
  - exfalso. apply Hz. rewrite <- E. now apply in_map.
  - now apply IH.
Qed.

(** On a well-formed table, a call for one key leaves the record found for
    any other key as it was. *)
Lemma saveItem_frame (now : Z) (args a : Store.Args.t) (db : Store.Db) :
  StoreInv.wf db -> ~ Store.sameKey args a ->
  Store.existingCard (fst (Store.saveItem now args db)) a
  = Store.existingCard db a.
Proof.
  intros [Hn [_ Ht]] K. rewrite !existingCard_hasKey.
  destruct (Store.existingCard db args) as [c|] eqn:E.
  - rewrite (saveItem_updated _ _ _ _ E). cbn [fst Store.user_review_deck].
    rewrite existingCard_hasKey in E. apply find_some in E.
    destruct E as [Hc Hk].
    unfold Store.patch. apply find_map_frame.
    + intro x. apply hasKey_patched.
    + intros x Hx. destruct (N.eqb (Store._id x) (Store._id c)) eqn:I;
        [|now left].
      right. apply N.eqb_eq in I.
      assert (x = c) by (eapply NoDup_map_same_image; eauto). subst x.
      destruct (Store.hasKey a c) eqn:Ka; [|reflexivity].
      exfalso. apply K.
      rewrite Forall_forall in Ht. specialize (Ht c Hc).
      apply (hasKey_typed args c Ht) in Hk.
      apply (hasKey_typed a c Ht) in Ka.
      destruct Hk as [U1 [T1 F1]], Ka as [U2 [T2 F2]].
      unfold Store.sameKey. repeat split; congruence.
  - apply existingCard_none in E. rewrite (saveItem_created _ _ _ E).
    cbn [fst Store.user_review_deck]. apply find_app_skip.
    destruct (Store.hasKey a (Store.newCardData (Store.nextId db) now args))
      eqn:Ka; [|reflexivity].
    exfalso. apply K. now apply hasKey_newCardData_only in Ka.
Qed.

(** Saving one item does not disturb the others.  In a table built by
    [saveItem] calls from the empty one, a further call for one key leaves
    the record of every other key exactly as it was: present or absent, with
    the same identifier and the same scheduling state. *)
Theorem saveItem_other_keys_untouched :
  forall (calls : list (Z * Store.Args.t)) (now : Z)
         (args a : Store.Args.t),
    ~ Store.sameKey args a ->
    Store.existingCard
      (fst (Store.saveItem now args
              (StoreInv.saveAll calls StoreInv.initialDb))) a
    = Store.existingCard (StoreInv.saveAll calls StoreInv.initialDb) a.
Proof.
  intros calls now args a K.
  apply saveItem_frame; [|exact K].
  apply saveAll_wf. apply initialDb_wf.
Qed.

Lemma saveAll_ids_unique_witness :
  Store.action
    (snd (Store.saveItem 20 MoreSamples.otherArgs
            (StoreInv.saveAll [(10, Samples.demoArgs 100 1 Review)]
               StoreInv.initialDb)))
  = Store.created /\
  ~ In (Store.id
          (snd (Store.saveItem 20 MoreSamples.otherArgs
                  (StoreInv.saveAll [(10, Samples.demoArgs 100 1 Review)]
                     StoreInv.initialDb))))
       (map Store._id
          (Store.user_review_deck
             (StoreInv.saveAll [(10, Samples.demoArgs 100 1 Review)]
                StoreInv.initialDb))).
Proof.
  assert (H : Store.action
                (snd (Store.saveItem 20 MoreSamples.otherArgs
                        (StoreInv.saveAll [(10, Samples.demoArgs 100 1 Review)]
                           StoreInv.initialDb)))
              = Store.created) by reflexivity.
  split; [exact H|].
  exact (proj2 (saveAll_ids_unique [(10, Samples.demoArgs 100 1 Review)] 20
                  MoreSamples.otherArgs) H).
Defined.

Lemma saveItem_other_keys_untouched_witness :
  ~ Store.sameKey MoreSamples.otherArgs (Samples.demoArgs 100 1 Review) /\
  Store.existingCard
    (fst (Store.saveItem 20 MoreSamples.otherArgs
            (StoreInv.saveAll [(10, Samples.demoArgs 100 1 Review)]
               StoreInv.initialDb)))
    (Samples.demoArgs 100 1 Review)
  = Store.existingCard
      (StoreInv.saveAll [(10, Samples.demoArgs 100 1 Review)]
         StoreInv.initialDb)
      (Samples.demoArgs 100 1 Review).
Proof.
  assert (K : ~ Store.sameKey MoreSamples.otherArgs
                (Samples.demoArgs 100 1 Review))
    by (intros [_ [_ H]]; discriminate H).
  split; [exact K|].
  exact (saveItem_other_keys_untouched [(10, Samples.demoArgs 100 1 Review)]
           20 MoreSamples.otherArgs (Samples.demoArgs 100 1 Review) K).
Defined.


(** ** The dashboard and the running session *)

Lemma mockItem_status (s : ReviewScreen.Sentence) (i : nat) :
  ReviewScreen.status (ReviewScreen.mockItem s i) <> Mastered.
Proof.
  unfold ReviewScreen.mockItem. cbn [ReviewScreen.status].
  destruct (Nat.eqb (i mod 3) 0); [discriminate|].
  destruct (Nat.eqb (i mod 3) 1); discriminate.
Qed.

Lemma mockDeck_items (l : list ReviewScreen.Sentence) (i : nat) :
  Forall (fun it => ReviewScreen.status it <> Mastered /\
                    ReviewScreen.type it = sentence)
         (ReviewScreen.mapi_from ReviewScreen.mockItem i l).
Proof.
  revert i. induction l as [|s l IH]; intro i; cbn [ReviewScreen.mapi_from].
  - constructor.
  - constructor; [|apply IH]. split; [apply mockItem_status | reflexivity].
Qed.

Lemma Forall_filter_keep (A : Type) (P : A -> Prop) (p : A -> bool)
  (l : list A) :
  Forall P l -> Forall P (filter p l).
Proof.
  intro H. induction H; cbn [filter]; [constructor|].
  destruct (p x); [constructor|]; assumption.
Qed.

(** The items that are due: cards of sentences, marked due, with a status
    other than mastered. *)
Lemma dueItems_items (s : ReviewScreen.Screen) :
  Forall (fun it => ReviewScreen.due it = true /\
                    ReviewScreen.type it = sentence /\
                    ReviewScreen.status it <> Mastered)
         (ReviewScreen.dueItems s).
Proof.
  unfold ReviewScreen.dueItems, ReviewScreen.reviewDeck.
  destruct (ReviewScreen.sentences s) as [l|]; [|constructor].
  apply Forall_forall. intros it Hin. apply filter_In in Hin.
  destruct Hin as [Hin Hd].
  pose proof (mockDeck_items l 0) as F. rewrite Forall_forall in F.
  destruct (F it Hin) as [Hs Ht]. auto.
Qed.

Lemma status_buckets (l : list ReviewScreen.ReviewItem) :
  Forall (fun it => ReviewScreen.status it <> Mastered) l ->
  (List.length (filter (Dashboard.hasStatus New) l)
   + List.length (filter (Dashboard.hasStatus Learning) l)
   + List.length (filter (Dashboard.hasStatus Review) l)
   = List.length l)%nat.
Proof.
  intro H. induction H as [|it l Hit _ IH]; [reflexivity|].
  cbn [filter].
  destruct (ReviewScreen.status it) eqn:E; [| | |contradiction];
    replace (Dashboard.hasStatus New it) with
      (match ReviewScreen.status it with New => true | _ => false end)
      by (unfold Dashboard.hasStatus; now destruct (ReviewScreen.status it));
    replace (Dashboard.hasStatus Learning it) with
      (match ReviewScreen.status it with Learning => true | _ => false end)
      by (unfold Dashboard.hasStatus; now destruct (ReviewScreen.status it));
    replace (Dashboard.hasStatus Review it) with
      (match ReviewScreen.status it with Review => true | _ => false end)
      by (unfold Dashboard.hasStatus; now destruct (ReviewScreen.status it));
    rewrite E; cbn [List.length]; lia.
Qed.

(** The three numbers shown on the dashboard add up to the number of cards
    due: every due card is counted in exactly one of new, learning and
    review, whatever the query returned. *)
Theorem counts_partition_due :
  forall s : ReviewScreen.Screen,
    (Dashboard.new (Dashboard.counts s)
     + Dashboard.learning (Dashboard.counts s)
     + Dashboard.review (Dashboard.counts s)
     = List.length (ReviewScreen.dueItems s))%nat.
Proof.
  intro s. unfold Dashboard.counts.
  cbn [Dashboard.new Dashboard.learning Dashboard.review].
  apply status_buckets.
  apply Forall_impl with (2 := dueItems_items s). tauto.
Qed.

Lemma handleGrade_screen (clientNow : Z) (net : ReviewScreen.Network) (g : Z)
  (w : ReviewScreen.World) :
  ReviewScreen.screen (fst (ReviewScreen.handleGrade clientNow net g w))
  = ReviewScreen.screen w \/
  ReviewScreen.screen (fst (ReviewScreen.handleGrade clientNow net g w))
  = ReviewScreen.recordGrade g (ReviewScreen.screen w).
Proof.
  unfold ReviewScreen.handleGrade.
  destruct (nth_error _ _) as [item|]; [|now left].
  destruct (ReviewScreen.saveToSRS _ _ _) as [d' [r|err]];
    cbn [fst ReviewScreen.screen]; [now right | now left].
Qed.

(** What a step does to the screen: nothing, a new query result, one of the
    handlers, or a grade of one of the four buttons recorded in the active
    view. *)
Lemma step_screen (w : ReviewScreen.World) (e : ReviewScreen.Event) :
  let s := ReviewScreen.screen w in
  let s' := ReviewScreen.screen (ReviewScreen.step w e) in
  s' = s \/
  (exists r, s' = ReviewScreen.setSentences r s) \/
  s' = ReviewScreen.startSession s \/
  s' = ReviewScreen.handleFlip s \/
  s' = ReviewScreen.setViewState ReviewScreen.dashboard s \/
  (exists b, ReviewScreen.viewState s = ReviewScreen.session /\
             s' = ReviewScreen.recordGrade (ReviewScreen.gradeOf b) s).
Proof.
  intros s s'. subst s s'. unfold ReviewScreen.step.
  destruct e as [r | | | b cn net | | ].
  - right. left. exists r. reflexivity.
  - destruct (ReviewScreen.view _); cbn; auto.
  - destruct (ReviewScreen.view _); cbn; auto.
  - unfold ReviewScreen.view.
    destruct (ReviewScreen.reviewDeck _); [|now left].
    destruct (ReviewScreen.viewState (ReviewScreen.screen w)) eqn:V;
      try now left.
    destruct (ReviewScreen.isFlipped _); [|now left].
    destruct (handleGrade_screen cn net (ReviewScreen.gradeOf b) w) as [H|H];
      rewrite H; [now left|].
    do 5 right. exists b. auto.
  - destruct (ReviewScreen.view _); cbn; auto 6.
  - destruct (ReviewScreen.view _); cbn; auto 6.
Qed.

(** One event keeps both: a card under the index while a session is active,
    and statistics that match the progress. *)
Lemma step_session_invariant (w : ReviewScreen.World) (e : ReviewScreen.Event) :
  Dashboard.cardAvailable (ReviewScreen.screen w) /\
  Dashboard.statsConsistent (ReviewScreen.screen w) ->
  Dashboard.cardAvailable (ReviewScreen.screen (ReviewScreen.step w e)) /\
  Dashboard.statsConsistent (ReviewScreen.screen (ReviewScreen.step w e)).
Proof.
  intros [C S].
  destruct (step_screen w e)
    as [H | [[r H] | [H | [H | [H | [b [V H]]]]]]]; rewrite H; clear H.
  - auto.
  - auto.
  - unfold ReviewScreen.startSession.
    destruct (ReviewScreen.dueItems (ReviewScreen.screen w)) as [|x l];
      [auto|].
    unfold Dashboard.cardAvailable, Dashboard.statsConsistent. cbn.
    repeat split; intros; try discriminate; lia.
  - auto.
  - unfold Dashboard.cardAvailable, Dashboard.statsConsistent in *. cbn.
    destruct S as [_ [_ B]].
    repeat split; try discriminate; tauto.
  - unfold Dashboard.cardAvailable, Dashboard.statsConsistent in *.
    specialize (C V). destruct S as [S1 [_ [P1 [P2 B]]]]. specialize (S1 V).
    assert (R : 1 <= ReviewScreen.gradeOf b <= 5) by (destruct b; cbn; lia).
    set (g := ReviewScreen.gradeOf b) in *. clearbody g.
    unfold ReviewScreen.recordGrade.
    destruct (Z.of_nat (ReviewScreen.currentIndex (ReviewScreen.screen w))
              <? Z.of_nat (List.length
                             (ReviewScreen.sessionQueue (ReviewScreen.screen w)))
                 - 1) eqn:E;
      [apply Z.ltb_lt in E | apply Z.ltb_ge in E];
      cbn [ReviewScreen.viewState ReviewScreen.currentIndex
           ReviewScreen.sessionQueue ReviewScreen.sessionResults
           ReviewScreen.correct ReviewScreen.incorrect ReviewScreen.xpGained];
      destruct (Z.leb_spec 3 g), (Z.ltb_spec g 3); try lia;
      rewrite ?V; repeat split; intros; try congruence; try lia.
Qed.

Lemma run_session_invariant (es : list ReviewScreen.Event)
  (w : ReviewScreen.World) :
  Dashboard.mounted w ->
  Dashboard.cardAvailable (ReviewScreen.screen (ReviewScreen.run w es)) /\
  Dashboard.statsConsistent (ReviewScreen.screen (ReviewScreen.run w es)).
Proof.
  intro M.
  assert (I : Dashboard.cardAvailable (ReviewScreen.screen w) /\
              Dashboard.statsConsistent (ReviewScreen.screen w)).
  { rewrite M. unfold Dashboard.cardAvailable, Dashboard.statsConsistent.
    cbn. repeat split; intros; try discriminate; lia. }
  clear M. revert w I. induction es as [|e es IH]; intros w I; [exact I|].
  unfold ReviewScreen.run in *. cbn [fold_left].
  apply IH. now apply step_session_invariant.
Qed.

(** While a session is active there is always a card under the index.  In
    every state the mounted screen can reach, through any sequence of query
    results and presses handled one after the other (no press while a grade
    is still being saved), an active session has
    [sessionQueue[currentIndex]] defined.  So rendering the card never reads
    a field of [undefined], and grading calls the mutation for that card and
    ends as the mutation does: it returns when the mutation returns and fails
    with the mutation's error when that is rejected, and in no other way. *)
Theorem active_session_has_current_card :
  forall (w : ReviewScreen.World) (es : list ReviewScreen.Event),
    Dashboard.mounted w ->
    ReviewScreen.viewState (ReviewScreen.screen (ReviewScreen.run w es))
    = ReviewScreen.session ->
    exists item,
      nth_error
        (ReviewScreen.sessionQueue
           (ReviewScreen.screen (ReviewScreen.run w es)))
        (ReviewScreen.currentIndex
           (ReviewScreen.screen (ReviewScreen.run w es)))
      = Some item /\
      forall clientNow net g,
        snd (ReviewScreen.handleGrade clientNow net g (ReviewScreen.run w es))
        = match snd (ReviewScreen.saveToSRS net
                       (ReviewScreen.gradeArgs clientNow g item)
                       (ReviewScreen.db (ReviewScreen.run w es))) with
          | Returned _ => Returned tt
          | Thrown err => Thrown err
          end.
Proof.
  intros w es M V.
  destruct (run_session_invariant es w M) as [C _].
  specialize (C V).
  destruct (nth_error
              (ReviewScreen.sessionQueue
                 (ReviewScreen.screen (ReviewScreen.run w es)))
              (ReviewScreen.currentIndex
                 (ReviewScreen.screen (ReviewScreen.run w es))))
    as [item|] eqn:E.
  - exists item. split; [reflexivity|].
    intros cn net g. unfold ReviewScreen.handleGrade. rewrite E.
    destruct (ReviewScreen.saveToSRS _ _ _) as [d' [r|err]]; reflexivity.
  - apply nth_error_None in E. lia.
Qed.

Lemma active_session_has_current_card_witness :
  Dashboard.mounted Samples.freshWorld /\
  ReviewScreen.viewState
    (ReviewScreen.screen
       (ReviewScreen.run Samples.freshWorld
          [ ReviewScreen.SentencesUpdate (Some Samples.threeSentences);
            ReviewScreen.ClickStartSession ]))
  = ReviewScreen.session /\
  exists item,
    nth_error
      (ReviewScreen.sessionQueue
         (ReviewScreen.screen
            (ReviewScreen.run Samples.freshWorld
               [ ReviewScreen.SentencesUpdate (Some Samples.threeSentences);
                 ReviewScreen.ClickStartSession ])))
      (ReviewScreen.currentIndex
         (ReviewScreen.screen
            (ReviewScreen.run Samples.freshWorld
               [ ReviewScreen.SentencesUpdate (Some Samples.threeSentences);
                 ReviewScreen.ClickStartSession ])))
    = Some item.
Proof.
  assert (M : Dashboard.mounted Samples.freshWorld) by reflexivity.
  assert (V : ReviewScreen.viewState
                (ReviewScreen.screen
                   (ReviewScreen.run Samples.freshWorld
                      [ ReviewScreen.SentencesUpdate
                          (Some Samples.threeSentences);
                        ReviewScreen.ClickStartSession ]))
              = ReviewScreen.session) by reflexivity.
  split; [exact M | split; [exact V |]].
  destruct (active_session_has_current_card Samples.freshWorld _ M V)
    as [item [E _]].
  exists item. exact E.
Defined.

(** The session statistics follow the session.  In every state the mounted
    screen can reach, its events handled one after the other: during a
    session the grades counted as correct and
    incorrect add up to the number of cards already behind, grades whose save
    failed not being counted; in the summary they add up to the number of
    cards of the session; and the experience points are at least 30 per
    correct and 10 per incorrect grade and at most 50 and 20. *)
Theorem session_statistics_follow_progress :
  forall (w : ReviewScreen.World) (es : list ReviewScreen.Event),
    Dashboard.mounted w ->
    Dashboard.statsConsistent (ReviewScreen.screen (ReviewScreen.run w es)).
Proof.
  intros w es M. exact (proj2 (run_session_invariant es w M)).
Qed.

Lemma session_statistics_follow_progress_witness :
  Dashboard.mounted Samples.freshWorld /\
  Dashboard.statsConsistent
    (ReviewScreen.screen
       (ReviewScreen.run Samples.startedWorld Samples.sessionEvents)).
Proof.
  assert (M : Dashboard.mounted Samples.freshWorld) by reflexivity.
  split; [exact M|].
  exact (session_statistics_follow_progress Samples.freshWorld
           ([ ReviewScreen.SentencesUpdate (Some Samples.threeSentences);
              ReviewScreen.ClickStartSession ] ++ Samples.sessionEvents) M).
Defined.

Lemma step_queue_items (w : ReviewScreen.World) (e : ReviewScreen.Event) :
  Forall (fun it => ReviewScreen.due it = true /\
                    ReviewScreen.type it = sentence /\
                    ReviewScreen.status it <> Mastered)
         (ReviewScreen.sessionQueue (ReviewScreen.screen w)) ->
  Forall (fun it => ReviewScreen.due it = true /\
                    ReviewScreen.type it = sentence /\
                    ReviewScreen.status it <> Mastered)
         (ReviewScreen.sessionQueue
            (ReviewScreen.screen (ReviewScreen.step w e))).
Proof.
  intro H.
  destruct (step_screen w e)
    as [E | [[r E] | [E | [E | [E | [b [V E]]]]]]]; rewrite E; clear E;
    try exact H.
  - unfold ReviewScreen.startSession.
    destruct (ReviewScreen.dueItems (ReviewScreen.screen w)) as [|x l] eqn:D;
      [exact H|].
    cbn [ReviewScreen.sessionQueue]. rewrite <- D. apply dueItems_items.
  - now rewrite recordGrade_queue.
Qed.

(** A session holds only cards that were due when it started.  In every
    state the mounted screen can reach, each card of the session queue is a
    sentence card that the deck marked as due, with a status other than
    mastered; so every record this screen writes is a sentence record. *)
Theorem session_queue_only_due_sentences :
  forall (w : ReviewScreen.World) (es : list ReviewScreen.Event),
    Dashboard.mounted w ->
    Forall (fun it => ReviewScreen.due it = true /\
                      ReviewScreen.type it = sentence /\
                      ReviewScreen.status it <> Mastered)
           (ReviewScreen.sessionQueue
              (ReviewScreen.screen (ReviewScreen.run w es))).
Proof.
  intros w es M.
  assert (I : Forall (fun it => ReviewScreen.due it = true /\
                                ReviewScreen.type it = sentence /\
                                ReviewScreen.status it <> Mastered)
                     (ReviewScreen.sessionQueue (ReviewScreen.screen w)))
    by (rewrite M; constructor).
  clear M. revert w I. induction es as [|e es IH]; intros w I; [exact I|].
  unfold ReviewScreen.run in *. cbn [fold_left].
  apply IH. now apply step_queue_items.
Qed.

Lemma session_queue_only_due_sentences_witness :
  Dashboard.mounted Samples.freshWorld /\
  Forall (fun it => ReviewScreen.due it = true /\
                    ReviewScreen.type it = sentence /\
                    ReviewScreen.status it <> Mastered)
         (ReviewScreen.sessionQueue
            (ReviewScreen.screen
               (ReviewScreen.run Samples.freshWorld
                  [ ReviewScreen.SentencesUpdate (Some Samples.threeSentences);
                    ReviewScreen.ClickStartSession ]))).
Proof.
  assert (M : Dashboard.mounted Samples.freshWorld) by reflexivity.
  split; [exact M|].
  exact (session_queue_only_due_sentences Samples.freshWorld _ M).
Defined.

Lemma step_db (w : ReviewScreen.World) (e : ReviewScreen.Event) :
  ReviewScreen.db (ReviewScreen.step w e) = ReviewScreen.db w \/
  exists now args,
    ReviewScreen.db (ReviewScreen.step w e)
    = fst (Store.saveItem now args (ReviewScreen.db w)).
Proof.
  unfold ReviewScreen.step.
  destruct e as [r | | | b cn net | | ];
    try (destruct (ReviewScreen.view _); now left).
  - now left.
  - destruct (ReviewScreen.view _); try now left.
    destruct (ReviewScreen.isFlipped _); [|now left].
    unfold ReviewScreen.handleGrade.
    destruct (nth_error _ _) as [item|]; [|now left].
    destruct (ReviewScreen.saveToSRS net
                (ReviewScreen.gradeArgs cn (ReviewScreen.gradeOf b) item)
                (ReviewScreen.db w)) as [d' [r|err]] eqn:S;
      cbn [fst ReviewScreen.db].
    + right. destruct (saveToSRS_returned _ _ _ _ _ S) as [t [isId [_ E]]].
      exists t, (ReviewScreen.gradeArgs cn (ReviewScreen.gradeOf b) item).
      now rewrite E.
    + left. exact (saveToSRS_thrown _ _ _ _ _ S).
Qed.

(** Grading never duplicates a record.  Starting with an empty store, after
    any sequence of query results, sessions and grades on the review screen,
    repeated sessions over the same cards included, the store holds at most
    one record for every key. *)
Theorem review_screen_one_record_per_key :
  forall (w : ReviewScreen.World) (es : list ReviewScreen.Event)
         (a : Store.Args.t),
    ReviewScreen.db w = StoreInv.initialDb ->
    (List.length (Store.recordsFor a (ReviewScreen.db (ReviewScreen.run w es)))
     <= 1)%nat.
Proof.
  intros w es a D.
  assert (I : forall a,
             (List.length (Store.recordsFor a (ReviewScreen.db w)) <= 1)%nat)
    by (intro b; rewrite D; cbn; lia).
  clear D. revert a. revert w I.
  induction es as [|e es IH]; intros w I a; [apply I|].
  unfold ReviewScreen.run in *. cbn [fold_left].
  apply IH. intro b.
  destruct (step_db w e) as [H | [now [args H]]]; rewrite H.
  - apply I.
  - now apply saveItem_at_most_one.
Qed.

Lemma review_screen_one_record_per_key_witness :
  ReviewScreen.db Samples.freshWorld = StoreInv.initialDb /\
  (List.length
     (Store.recordsFor (Samples.demoArgs 100 1 Review)
        (ReviewScreen.db
           (ReviewScreen.run Samples.startedWorld Samples.sessionEvents)))
   <= 1)%nat.
Proof.
  assert (D : ReviewScreen.db Samples.freshWorld = StoreInv.initialDb)
    by reflexivity.
  split; [exact D|].
  exact (review_screen_one_record_per_key Samples.freshWorld
           ([ ReviewScreen.SentencesUpdate (Some Samples.threeSentences);
              ReviewScreen.ClickStartSession ] ++ Samples.sessionEvents)
           (Samples.demoArgs 100 1 Review) D).
Defined.


(** ** The caches and the queue under storage failures *)

(** Caching an empty result does not clear the sentence cache, caching an
    empty deck does clear the deck cache.  With the storage working,
    [loadSentences] after [saveSentences] returns the saved sentences when
    there are any and what was cached before when there are none, while
    [loadReviewDeck] after [saveReviewDeck] returns the saved deck, empty or
    not.  A write that fails is not reported and leaves what was cached; a
    read that fails gives the empty list. *)
Theorem cache_save_then_load :
  forall (A : Type) (l : list A) (st : Cache.Cell A),
    Cache.loadSentences true (Cache.saveSentences true l st)
    = match l with
      | [] => Cache.loadSentences true st
      | _ :: _ => l
      end /\
    Cache.loadReviewDeck true (Cache.saveReviewDeck true l st) = l /\
    Cache.saveSentences false l st = st /\
    Cache.saveReviewDeck false l st = st /\
    Cache.loadSentences false st = [] /\
    Cache.loadReviewDeck false st = [].
Proof.
  intros A l st. destruct l; repeat split.
Qed.

(** [queuePendingReview] can lose queued grades without reporting a
    failure.  When the read of the stored queue fails, or the stored text is
    not JSON, and the write goes through, the call returns normally and the
    stored queue is replaced by the new action alone: every action queued
    before is gone.  When the write fails, the storage is left as it was, so
    the new action is not queued, and the call still returns normally as long
    as what it read is a list.  The one failure it reports is the [TypeError]
    of [push] when the stored text parses to something that is not a list;
    the storage is then left as it was. *)
Theorem queuePendingReview_silent_loss :
  forall (uuid : string) (now : Z)
         (action : OfflineCache.ReviewActionInput),
    (forall st,
        OfflineCache.queuePendingReview uuid now false true action st
        = (Some (OfflineCache.Json
                   [OfflineCache.Queued
                      (OfflineCache.stamped (uuid, now, action))]),
           Returned tt)) /\
    (forall raw,
        OfflineCache.queuePendingReview uuid now true true action
          (Some (OfflineCache.Unparseable raw))
        = (Some (OfflineCache.Json
                   [OfflineCache.Queued
                      (OfflineCache.stamped (uuid, now, action))]),
           Returned tt)) /\
    (forall rd st,
        fst (OfflineCache.queuePendingReview uuid now rd false action st)
        = st) /\
    (forall rd wr st,
        OfflineCache.holdsList st = true ->
        snd (OfflineCache.queuePendingReview uuid now rd wr action st)
        = Returned tt) /\
    (forall wr raw,
        OfflineCache.queuePendingReview uuid now true wr action
          (Some (OfflineCache.NonArray raw))
        = (Some (OfflineCache.NonArray raw), Thrown "TypeError")).
Proof.
  intros uuid now action.
  split; [reflexivity|]. split; [reflexivity|]. split; [|split].
  - intros rd st. unfold OfflineCache.queuePendingReview.
    destruct (OfflineCache.getPendingReviews rd st); reflexivity.
  - intros rd wr st H. destruct rd, st as [[l|raw|raw]|];
      try discriminate H; reflexivity.
  - reflexivity.
Qed.

(** ** Audio generation *)

Lemma retryLoop_cases (api : nat -> Completion string) :
  Audio.fetchMiniMaxWithRetry api
  = Some
      match api 0%nat with
      | Returned u => Audio.mkRun (Returned u) 1 0
      | Thrown _ =>
          match api 1%nat with
          | Returned u => Audio.mkRun (Returned u) 2 1000
          | Thrown _ =>
              match api 2%nat with
              | Returned u => Audio.mkRun (Returned u) 3 3000
              | Thrown _ =>
                  Audio.mkRun
                    (Thrown "Failed to generate audio after 3 attempts.")
                    3 3000
              end
          end
      end.
Proof.
  unfold Audio.fetchMiniMaxWithRetry. cbn.
  destruct (api 0%nat); [reflexivity|].
  destruct (api 1%nat); [reflexivity|].
  destruct (api 2%nat); reflexivity.
Qed.

(** [fetchMiniMaxWithRetry] gives up after three calls.  Whatever the speech
    service does, the function completes: it returns the first address one of
    the first three calls returns, after waiting 1000 ms following the first
    failure and 2000 ms following the second, and when all three fail it throws
    the three-attempts error without a further wait.  It never makes a fourth
    call and never reaches the error after the loop. *)
Theorem fetchMiniMaxWithRetry_three_attempts :
  forall api : nat -> Completion string,
    exists run,
      Audio.fetchMiniMaxWithRetry api = Some run /\
      (Audio.calls run <= 3)%nat /\
      0 <= Audio.waited run <= 3000 /\
      Audio.outcome run <> Thrown "Unexpected retry loop exit" /\
      (forall u, api 0%nat = Returned u ->
                 run = Audio.mkRun (Returned u) 1 0) /\
      (forall e u, api 0%nat = Thrown e -> api 1%nat = Returned u ->
                   run = Audio.mkRun (Returned u) 2 1000) /\
      (forall e e' u,
          api 0%nat = Thrown e -> api 1%nat = Thrown e' ->
          api 2%nat = Returned u ->
          run = Audio.mkRun (Returned u) 3 3000) /\
      (forall e e' e'',
          api 0%nat = Thrown e -> api 1%nat = Thrown e' ->
          api 2%nat = Thrown e'' ->
          run = Audio.mkRun
                  (Thrown "Failed to generate audio after 3 attempts.") 3 3000).
Proof.
  intro api. eexists. split; [apply retryLoop_cases|].
  destruct (api 0%nat) as [u0|e0]; [|destruct (api 1%nat) as [u1|e1];
    [|destruct (api 2%nat) as [u2|e2]]];
    cbn [Audio.calls Audio.waited Audio.outcome];
    repeat split; try lia; try discriminate; intros; congruence.
Qed.

Lemma fetchMiniMaxWithRetry_three_attempts_witness :
  MoreSamples.flakyApi 0 = Thrown "503" /\
  MoreSamples.flakyApi 1 = Returned "https://audio.example/7.mp3"%string /\
  Audio.fetchMiniMaxWithRetry MoreSamples.flakyApi
  = Some (Audio.mkRun (Returned "https://audio.example/7.mp3"%string) 2 1000).
Proof.
  assert (H0 : MoreSamples.flakyApi 0 = Thrown "503") by reflexivity.
  assert (H1 : MoreSamples.flakyApi 1 = Returned "https://audio.example/7.mp3"%string)
    by reflexivity.
  split; [exact H0 | split; [exact H1 |]].
  destruct (fetchMiniMaxWithRetry_three_attempts MoreSamples.flakyApi)
    as [run [E [_ [_ [_ [_ [H _]]]]]]].
  rewrite E. f_equal. exact (H _ _ H0 H1).
Defined.

Lemma get_saveAudioUrl (id u : string) (tbl : list Audio.SentenceDoc)
  (doc : Audio.SentenceDoc) :
  Audio.get id tbl = Some doc ->
  Audio.get id (Audio.saveAudioUrl id u tbl)
  = Some (Audio.mkDoc (Audio._id doc) (Audio.original doc) (Some u)).
Proof.
  intro H. unfold Audio.get, Audio.saveAudioUrl in *.
  rewrite find_map_same.
  - rewrite H. cbn [option_map].
    apply find_some in H. destruct H as [_ H]. now rewrite H.
  - intro x. destruct (String.eqb (Audio._id x) id) eqn:E;
      cbn [Audio._id]; now rewrite ?E.
Qed.

(** Audio is generated once per sentence.  When [generate] succeeds for a
    sentence that had no audio and the service returned a non-empty address,
    the sentence carries that address afterwards, and any later [generate]
    for the same sentence returns it as [skipped] without calling the speech
    service and without changing the table. *)
Theorem generate_once_then_skipped :
  forall (api api' : nat -> Completion string) (id : string)
         (tbl : list Audio.SentenceDoc) (doc : Audio.SentenceDoc)
         (run : Audio.Run) (u : string),
    Audio.get id tbl = Some doc ->
    Audio.existing (Audio.audioUrl doc) = None ->
    Audio.fetchMiniMaxWithRetry api = Some run ->
    Audio.outcome run = Returned u ->
    u <> ""%string ->
    Audio.generate api id tbl
    = Some (Audio.mkGenerated (Audio.saveAudioUrl id u tbl)
              (Returned (Audio.mkAudio Audio.success u)) (Audio.calls run)) /\
    Audio.generate api' id (Audio.saveAudioUrl id u tbl)
    = Some (Audio.mkGenerated (Audio.saveAudioUrl id u tbl)
              (Returned (Audio.mkAudio Audio.skipped u)) 0).
Proof.
  intros api api' id tbl doc run u G E F O U. split.
  - unfold Audio.generate, Audio.getSentenceData. rewrite G, E, F, O.
    reflexivity.
  - unfold Audio.generate, Audio.getSentenceData.
    rewrite (get_saveAudioUrl id u tbl doc G).
    cbn [Audio.original Audio.audioUrl Audio.existing].
    apply String.eqb_neq in U. rewrite U. reflexivity.
Qed.

Lemma generate_once_then_skipped_witness :
  Audio.get "sentences:7" MoreSamples.oneSentence
  = Some (Audio.mkDoc "sentences:7" "ni hao" None) /\
  Audio.generate MoreSamples.deadApi "sentences:7"
    (Audio.saveAudioUrl "sentences:7" "https://audio.example/7.mp3"
       MoreSamples.oneSentence)
  = Some (Audio.mkGenerated
            (Audio.saveAudioUrl "sentences:7" "https://audio.example/7.mp3"
               MoreSamples.oneSentence)
            (Returned (Audio.mkAudio Audio.skipped
                         "https://audio.example/7.mp3")) 0).
Proof.
  assert (G : Audio.get "sentences:7" MoreSamples.oneSentence
              = Some (Audio.mkDoc "sentences:7" "ni hao" None))
    by reflexivity.
  assert (E : Audio.existing
                (Audio.audioUrl (Audio.mkDoc "sentences:7" "ni hao" None))
              = None) by reflexivity.
  assert (F : Audio.fetchMiniMaxWithRetry MoreSamples.flakyApi
              = Some (Audio.mkRun
                        (Returned "https://audio.example/7.mp3"%string) 2 1000))
    by reflexivity.
  assert (O : Audio.outcome
                (Audio.mkRun (Returned "https://audio.example/7.mp3"%string)
                   2 1000)
              = Returned "https://audio.example/7.mp3"%string) by reflexivity.
  assert (U : "https://audio.example/7.mp3"%string <> ""%string)
    by discriminate.
  split; [exact G|].
  exact (proj2 (generate_once_then_skipped MoreSamples.flakyApi
                  MoreSamples.deadApi _ _ _ _ _ G E F O U)).
Defined.

(** [generate] calls the speech service only for a stored sentence without
    audio, and a failure changes nothing.  It always completes, with at most
    three calls of the service.  For an unknown sentence it throws without a
    call; for a sentence that has audio it returns that address as [skipped]
    without a call; and whenever it throws, the table is as it was. *)
Theorem generate_failure_leaves_table :
  forall (api : nat -> Completion string) (id : string)
         (tbl : list Audio.SentenceDoc),
    exists g,
      Audio.generate api id tbl = Some g /\
      (Audio.ttsCalls g <= 3)%nat /\
      (forall err, Audio.result g = Thrown err -> Audio.table g = tbl) /\
      (Audio.get id tbl = None ->
       g = Audio.mkGenerated tbl
             (Thrown ("Sentence not found: " ++ id)) 0) /\
      (forall doc u,
          Audio.get id tbl = Some doc ->
          Audio.existing (Audio.audioUrl doc) = Some u ->
          g = Audio.mkGenerated tbl
                (Returned (Audio.mkAudio Audio.skipped u)) 0).
Proof.
  intros api id tbl. unfold Audio.generate, Audio.getSentenceData.
  destruct (Audio.get id tbl) as [doc|] eqn:G.
  - destruct (Audio.existing (Audio.audioUrl doc)) as [u|] eqn:E.
    + eexists. split; [reflexivity|]. cbn.
      repeat split; try lia; try discriminate.
      intros doc' u' H1 H2. injection H1 as <-. congruence.
    + rewrite retryLoop_cases.
      set (run := match api 0%nat with
                  | Returned u => Audio.mkRun (Returned u) 1 0
                  | Thrown _ => _
                  end).
      assert (C : (Audio.calls run <= 3)%nat).
      { subst run. destruct (api 0%nat); [cbn; lia|].
        destruct (api 1%nat); [cbn; lia|].
        destruct (api 2%nat); cbn; lia. }
      clearbody run. destruct (Audio.outcome run) as [u|err] eqn:O.
      * eexists. split; [reflexivity|]. cbn.
        repeat split; try exact C; try discriminate.
        intros doc' u' H1 H2. injection H1 as <-. congruence.
      * eexists. split; [reflexivity|]. cbn.
        repeat split; try exact C; try discriminate.
        intros doc' u' H1 H2. injection H1 as <-. congruence.
  - eexists. split; [reflexivity|]. cbn.
    repeat split; try lia; try discriminate.
Qed.

Lemma generate_failure_leaves_table_witness :
  Audio.get "sentences:99" MoreSamples.oneSentence = None /\
  Audio.generate MoreSamples.deadApi "sentences:99" MoreSamples.oneSentence
  = Some (Audio.mkGenerated MoreSamples.oneSentence
            (Thrown ("Sentence not found: " ++ "sentences:99")) 0).
Proof.
  assert (G : Audio.get "sentences:99" MoreSamples.oneSentence = None)
    by reflexivity.
  split; [exact G|].
  destruct (generate_failure_leaves_table MoreSamples.deadApi "sentences:99"
              MoreSamples.oneSentence) as [g [E [_ [_ [H _]]]]].
  rewrite E. f_equal. exact (H G).
Defined.


(** ** Saving an analysed journal *)

Lemma tagsOf_length (s : Journal.GeneratedSentence) :
  (List.length (Journal.tagsOf s) <= 2)%nat.
Proof.
  unfold Journal.tagsOf. rewrite length_app.
  destruct (Journal.grammarPoint s) as [g|];
    [destruct (String.eqb g "")|];
    (destruct (Journal.newCharacters s) as [[|c cs]|]); cbn; lia.
Qed.

(** The loop adds one document per sentence, in order, under consecutive
    identifiers. *)
Lemma insertSentences_spec (clock : nat -> Z) (u : string) (j : N)
  (todo : list Journal.GeneratedSentence) :
  forall (k : nat) (db : Journal.Db)
         (saved : list (Journal.GeneratedSentence * N)),
    let r := Journal.insertSentences clock k u j todo db saved in
    Journal.journalRows (fst r) = Journal.journalRows db /\
    Journal.nextId (fst r)
    = (Journal.nextId db + N.of_nat (List.length todo))%N /\
    exists docs,
      Journal.sentenceRows (fst r) = Journal.sentenceRows db ++ docs /\
      snd r = saved ++ combine todo (map Journal.SentenceDoc._id docs) /\
      map Journal.SentenceDoc._id docs
      = map (fun i => (Journal.nextId db + N.of_nat i)%N)
            (seq 0 (List.length todo)) /\
      map Journal.SentenceDoc.original docs = map Journal.original todo /\
      Forall (fun d => Journal.SentenceDoc.journalId d = j /\
                       Journal.SentenceDoc.userId d = u /\
                       Journal.SentenceDoc.source d = "Journal"%string /\
                       (List.length (Journal.SentenceDoc.tags d) <= 2)%nat)
             docs.
Proof.
  induction todo as [|s rest IH]; intros k db saved r; subst r.
  - cbn [Journal.insertSentences fst snd List.length]. split; [reflexivity|].
    split; [now rewrite N.add_0_r|].
    exists []. cbn. rewrite !app_nil_r. repeat split. constructor.
  - cbn [Journal.insertSentences].
    match goal with
    | |- context [Journal.insertSentences clock (S k) u j rest ?d ?sv] =>
        destruct (IH (S k) d sv) as [Hj [Hn [docs [Hs [Hr [Hi [Ho Hf]]]]]]]
    end.
    cbn [Journal.journalRows Journal.sentenceRows Journal.nextId] in *.
    split; [exact Hj|]. split; [rewrite Hn; cbn [List.length]; lia|].
    eexists (_ :: docs). rewrite Hs, Hr, <- !app_assoc. cbn [app].
    split; [reflexivity|]. cbn [map combine Journal.SentenceDoc._id].
    split; [reflexivity|]. split.
    + cbn [List.length seq map]. rewrite N.add_0_r. f_equal.
      rewrite Hi, <- seq_shift, map_map. apply map_ext.
      intro i. lia.
    + split.
      * cbn [Journal.SentenceDoc.original]. now rewrite Ho.
      * constructor; [|exact Hf]. cbn. repeat split. apply tagsOf_length.
Qed.

Lemma N_shift_injective (n : N) (l : list nat) :
  NoDup l -> NoDup (map (fun i => (n + N.of_nat i)%N) l).
Proof.
  intro H. induction H as [|x l Hx _ IH]; cbn [map]; constructor; [|exact IH].
  intro Hin. apply in_map_iff in Hin. destruct Hin as [y [E Hy]].
  assert (y = x) by lia. subst y. contradiction.
Qed.

(** [saveJournalData] stores a journal with all its sentences.  It appends
    one journal document, marked processed, with the given user, title and
    content, and one sentence document per analysed sentence, in order, each
    pointing to the new journal, owned by the same user, with source
    [Journal], the sentence's text and at most two tags.  It returns the
    journal's identifier and the analysed sentences paired with the
    identifiers of their documents; these identifiers are pairwise distinct
    and none was in use before. *)
Theorem saveJournalData_links_sentences :
  forall (clock : nat -> Z) (userId content : string)
         (analysis : Journal.Analysis) (db : Journal.Db),
    let r := Journal.saveJournalData clock userId content analysis db in
    let db' := fst r in
    let journalId := fst (snd r) in
    let saved := snd (snd r) in
    Journal.journalRows db'
    = Journal.journalRows db
      ++ [Journal.JournalDoc.mk journalId userId (Journal.title analysis)
            content (clock 0%nat) true] /\
    map fst saved = Journal.sentences analysis /\
    map Journal.SentenceDoc._id (Journal.added db db') = map snd saved /\
    Journal.sentenceRows db'
    = Journal.sentenceRows db ++ Journal.added db db' /\
    map Journal.SentenceDoc.original (Journal.added db db')
    = map Journal.original (Journal.sentences analysis) /\
    Forall (fun d => Journal.SentenceDoc.journalId d = journalId /\
                     Journal.SentenceDoc.userId d = userId /\
                     Journal.SentenceDoc.source d = "Journal"%string /\
                     (List.length (Journal.SentenceDoc.tags d) <= 2)%nat)
           (Journal.added db db') /\
    NoDup (journalId :: map snd saved) /\
    Forall (fun i => (Journal.nextId db <= i < Journal.nextId db')%N)
           (journalId :: map snd saved).
Proof.
  intros clock userId content analysis db r db' journalId saved.
  subst r db' journalId saved. unfold Journal.saveJournalData.
  cbn [fst snd].
  match goal with
  | |- context [Journal.insertSentences clock 1 userId ?j ?todo ?d ?sv] =>
      destruct (insertSentences_spec clock userId j todo 1 d sv)
        as [Hj [Hn [docs [Hs [Hr [Hi [Ho Hf]]]]]]]
  end.
  cbn [Journal.journalRows Journal.sentenceRows Journal.nextId app] in *.
  assert (Hlen : List.length docs
                 = List.length (Journal.sentences analysis)).
  { rewrite <- (length_map Journal.SentenceDoc._id docs), Hi.
    now rewrite length_map, length_seq. }
  assert (Hadd : Journal.added db
                   (fst (Journal.insertSentences clock 1 userId
                           (Journal.nextId db) (Journal.sentences analysis)
                           {| Journal.journalRows :=
                                Journal.journalRows db
                                ++ [Journal.JournalDoc.mk (Journal.nextId db)
                                      userId (Journal.title analysis) content
                                      (clock 0%nat) true];
                              Journal.sentenceRows := Journal.sentenceRows db;
                              Journal.nextId := N.succ (Journal.nextId db) |}
                           []))
                 = docs).
  { unfold Journal.added. rewrite Hs. rewrite skipn_app, skipn_all.
    now rewrite Nat.sub_diag. }
  rewrite Hadd, Hr, Hj.
  assert (Hsnd : map snd (combine (Journal.sentences analysis)
                            (map Journal.SentenceDoc._id docs))
                 = map Journal.SentenceDoc._id docs).
  { rewrite <- (length_map Journal.SentenceDoc._id docs) in Hlen.
    revert Hlen. generalize (map Journal.SentenceDoc._id docs).
    generalize (Journal.sentences analysis).
    induction l as [|a l IH]; intros [|b m] E; cbn in *;
      try discriminate; [reflexivity|].
    f_equal. apply IH. lia. }
  assert (Hfst : map fst (combine (Journal.sentences analysis)
                            (map Journal.SentenceDoc._id docs))
                 = Journal.sentences analysis).
  { rewrite <- (length_map Journal.SentenceDoc._id docs) in Hlen.
    revert Hlen. generalize (map Journal.SentenceDoc._id docs).
    generalize (Journal.sentences analysis).
    induction l as [|a l IH]; intros [|b m] E; cbn in *;
      try discriminate; [reflexivity|].
    f_equal. apply IH. lia. }
  split; [reflexivity|]. split; [exact Hfst|].
  split; [now rewrite Hsnd|]. split; [exact Hs|]. split; [exact Ho|].
  split; [exact Hf|]. rewrite Hsnd, Hi, Hn.
  split.
  - constructor.
    + intro Hin. apply in_map_iff in Hin. destruct Hin as [i [E _]]. lia.
    + apply N_shift_injective. apply seq_NoDup.
  - constructor; [lia|].
    apply Forall_forall. intros x Hin. apply in_map_iff in Hin.
    destruct Hin as [i [E Hin]]. apply in_seq in Hin. lia.
Qed.


(** ** The practice session *)

Lemma setAudioAt_length (i : nat) (url : string) (q : list Practice.Card) :
  List.length (Practice.setAudioAt i url q) = List.length q.
Proof.
  revert i. induction q as [|c q IH]; intros [|i]; cbn; auto.
Qed.

Lemma setAudioAt_ids (i : nat) (url : string) (q : list Practice.Card) :
  map Practice._id (Practice.setAudioAt i url q) = map Practice._id q.
Proof.
  revert i. induction q as [|c q IH]; intros [|i]; cbn; auto.
  now rewrite IH.
Qed.

Lemma practice_handleGrade_screen (clientNow : Z) (net : ReviewScreen.Network)
  (g : Z) (w : Practice.World) :
  Practice.screen (fst (Practice.handleGrade clientNow net g w))
  = Practice.screen w \/
  (Practice.currentCard (Practice.screen w) <> None /\
   Practice.screen (fst (Practice.handleGrade clientNow net g w))
   = Practice.recordGrade g (Practice.screen w)).
Proof.
  unfold Practice.handleGrade.
  destruct (Practice.currentCard (Practice.screen w)) as [card|];
    [|now left].
  destruct (ReviewScreen.saveToSRS _ _ _) as [d' [r|err]];
    cbn [fst Practice.screen]; [right | now left].
  split; [discriminate | reflexivity].
Qed.

Lemma practice_step_progress (w : Practice.World) (e : Practice.Event) :
  Practice.progressConsistent (Practice.screen w) ->
  Practice.progressConsistent (Practice.screen (Practice.step w e)).
Proof.
  intros [R [I C]]. unfold Practice.step.
  destruct e as [r shuffle | | b cn net | url | ].
  - cbn [Practice.onScreen Practice.screen].
    unfold Practice.initQueue, Practice.setSentences.
    cbn [Practice.sentences Practice.queue].
    destruct r as [l|]; [|now repeat split].
    destruct (Practice.queue (Practice.screen w)) eqn:Q.
    + unfold Practice.progressConsistent.
      cbn [Practice.queue Practice.currentIndex Practice.sessionStats
           List.length] in *.
      repeat split; lia.
    + unfold Practice.progressConsistent.
      cbn [Practice.queue Practice.currentIndex Practice.sessionStats].
      repeat split; lia.
  - destruct (Practice.view _); try now repeat split.
  - destruct (Practice.view _); try now repeat split.
    destruct (Practice.isFlipped _); [|now repeat split].
    destruct (practice_handleGrade_screen cn net (ReviewScreen.gradeOf b) w)
      as [H | [Hc H]]; rewrite H; [now repeat split|].
    unfold Practice.currentCard in Hc. apply nth_error_Some in Hc.
    unfold Practice.progressConsistent, Practice.recordGrade. cbn.
    destruct (3 <=? ReviewScreen.gradeOf b); repeat split; lia.
  - destruct (Practice.view _); try now repeat split.
    cbn [Practice.onScreen Practice.screen]. unfold Practice.audioGenerated.
    destruct (Practice.currentCard _) as [card|]; [|now repeat split].
    destruct (Audio.existing _); [now repeat split|].
    unfold Practice.progressConsistent. cbn.
    rewrite setAudioAt_length. auto.
  - destruct (Practice.view _); try now repeat split.
    all: unfold Practice.progressConsistent; cbn; repeat split; lia.
Qed.

(** The practice screen counts what it shows.  In every state the mounted
    screen can reach, through any query results, shuffles, presses, generated
    audio and reloads handled one after the other, the number of reviewed cards equals the index of the
    current card, the index does not pass the end of the queue, and no more
    cards are counted correct than reviewed; so the number shown on the final
    view is the number of cards of the queue. *)
Theorem practice_progress_counts :
  forall (w : Practice.World) (es : list Practice.Event),
    Practice.screen w = Practice.initialScreen ->
    let s := Practice.screen (Practice.run w es) in
    Practice.progressConsistent s /\
    (Practice.isFinished s = true ->
     Practice.reviewed (Practice.sessionStats s)
     = Z.of_nat (List.length (Practice.queue s))).
Proof.
  intros w es M s.
  assert (P : Practice.progressConsistent s).
  { subst s.
    assert (I : Practice.progressConsistent (Practice.screen w))
      by (rewrite M; unfold Practice.progressConsistent; cbn; lia).
    clear M. revert w I. induction es as [|e es IH]; intros w I; [exact I|].
    unfold Practice.run in *. cbn [fold_left].
    apply IH. now apply practice_step_progress. }
  split; [exact P|].
  destruct P as [R [I _]]. unfold Practice.isFinished.
  rewrite andb_true_iff. intros [_ F]. apply Nat.leb_le in F. lia.
Qed.

Lemma practice_progress_counts_witness :
  Practice.screen (Practice.mkWorld Practice.initialScreen StoreInv.initialDb)
  = Practice.initialScreen /\
  Practice.progressConsistent
    (Practice.screen
       (Practice.run
          (Practice.mkWorld Practice.initialScreen StoreInv.initialDb)
          [ Practice.SentencesUpdate
              (Some [Practice.mkCard "sentences:7" "ni hao" None])
              (fun l => l);
            Practice.ClickShowAnswer;
            Practice.ClickGrade ReviewScreen.Good 5000
              (ReviewScreen.Online 5001 Samples.standIn) ])).
Proof.
  assert (M : Practice.screen
                (Practice.mkWorld Practice.initialScreen StoreInv.initialDb)
              = Practice.initialScreen) by reflexivity.
  split; [exact M|].
  exact (proj1 (practice_progress_counts _ _ M)).
Defined.

Lemma practice_step_ids (w : Practice.World) (e : Practice.Event) :
  Practice.queue (Practice.screen w) <> [] ->
  Practice.isReload e = false ->
  map Practice._id (Practice.queue (Practice.screen (Practice.step w e)))
  = map Practice._id (Practice.queue (Practice.screen w)).
Proof.
  intros Q N. unfold Practice.step.
  destruct e as [r shuffle | | b cn net | url | ]; try discriminate N.
  - cbn [Practice.onScreen Practice.screen].
    unfold Practice.initQueue, Practice.setSentences.
    cbn [Practice.sentences Practice.queue].
    destruct r as [l|]; [|reflexivity].
    destruct (Practice.queue (Practice.screen w)) eqn:E;
      [congruence | reflexivity].
  - destruct (Practice.view _); reflexivity.
  - destruct (Practice.view _); try reflexivity.
    destruct (Practice.isFlipped _); [|reflexivity].
    destruct (practice_handleGrade_screen cn net (ReviewScreen.gradeOf b) w)
      as [H | [_ H]]; rewrite H; reflexivity.
  - destruct (Practice.view _); try reflexivity.
    cbn [Practice.onScreen Practice.screen]. unfold Practice.audioGenerated.
    destruct (Practice.currentCard _) as [card|]; [|reflexivity].
    destruct (Audio.existing _); [reflexivity|].
    cbn [Practice.queue]. apply setAudioAt_ids.
Qed.

(** The practice queue is shuffled once.  Once the queue holds cards, no
    later query result, press, grade or generated audio changes which
    sentences it holds or their order, as long as the page is not reloaded:
    a later result of the query is not shuffled in. *)
Theorem practice_queue_order_fixed :
  forall (w : Practice.World) (es : list Practice.Event),
    Practice.queue (Practice.screen w) <> [] ->
    forallb (fun e => negb (Practice.isReload e)) es = true ->
    map Practice._id (Practice.queue (Practice.screen (Practice.run w es)))
    = map Practice._id (Practice.queue (Practice.screen w)).
Proof.
  intros w es. revert w. induction es as [|e es IH]; intros w Q N;
    [reflexivity|].
  cbn [forallb] in N. apply andb_true_iff in N. destruct N as [Ne N].
  apply negb_true_iff in Ne.
  pose proof (practice_step_ids w e Q Ne) as S.
  unfold Practice.run in *. cbn [fold_left].
  rewrite IH; [exact S | | exact N].
  intro E. apply Q. rewrite E in S. cbn in S.
  destruct (Practice.queue (Practice.screen w)); [reflexivity|discriminate S].
Qed.

Lemma practice_queue_order_fixed_witness :
  Practice.queue (Practice.screen MoreSamples.practiceWorld) <> [] /\
  forallb (fun e => negb (Practice.isReload e)) MoreSamples.practiceEvents
  = true /\
  map Practice._id
    (Practice.queue
       (Practice.screen
          (Practice.run MoreSamples.practiceWorld MoreSamples.practiceEvents)))
  = map Practice._id
      (Practice.queue (Practice.screen MoreSamples.practiceWorld)).
Proof.
  assert (Q : Practice.queue (Practice.screen MoreSamples.practiceWorld) <> [])
    by discriminate.
  assert (N : forallb (fun e => negb (Practice.isReload e))
                MoreSamples.practiceEvents = true) by reflexivity.
  split; [exact Q | split; [exact N |]].
  exact (practice_queue_order_fixed MoreSamples.practiceWorld
           MoreSamples.practiceEvents Q N).
Defined.


